(** * The asynchronous workload dequeuer: [pkg/dequeuer/async_handler.go]

    A shallow embedding of [AsyncMessageHandler] and of the collaborators it
    talks to (object store, user container over HTTP, event sink, logger),
    followed by the properties of the per-request state machine.

    Go values are embedded as follows.
    - [error] is an inductive type; a Go [error] that may be [nil] is an
      [option error], [None] being [nil].
    - A pointer that may be [nil] ([*sqs.Message], [*string]) is an [option].
    - The handler's effects are threaded through a state monad over [World]:
      the bucket contents, the wall clock, the log, the telemetry sink and the
      sequence of calls made to the outside ([trace]), each with its outcome.
    - Whether a call to the outside fails is decided by the clients the
      handler holds ([aws], [client]); they may inspect the whole world.
    - [pkg/types/async] and [encoding/json] are parameters of the handler's
      section; [Demo] instantiates them for the scenarios at the end. *)

From Stdlib Require Import ZArith String Ascii List Lia DecimalString.
From stdpp Require Import base option list gmap strings.

Local Open Scope string_scope.
Local Open Scope Z_scope.
Local Open Scope list_scope.

(** ** Errors ([pkg/lib/errors] and the dequeuer's own error constructors) *)

Inductive error : Type :=
  | ExternalError (msg : string)
  | ErrorUnexpected (msg : string)
  | Wrap (err : error) (msg : string)
  | WithStack (err : error)
  | ErrorUserContainerNotReachable (err : error)
  | ErrorUserContainerResponseStatusCode (statusCode : Z)
  | ErrorUserContainerResponseMissingJSONHeader
  | ErrorUserContainerResponseNotJSONDecodable.

Definition is_unexpected (e : option error) : Prop :=
  exists msg, e = Some (ErrorUnexpected msg).

(** ** [async.Status] *)

Inductive Status : Type := StatusInProgress | StatusCompleted | StatusFailed.

Definition is_terminal (s : Status) : bool :=
  match s with
  | StatusInProgress => false
  | StatusCompleted | StatusFailed => true
  end.

(** The order of the data model: [InProgress < Completed], [InProgress < Failed]. *)
Definition rank (s : Status) : nat :=
  match s with
  | StatusInProgress => 0
  | StatusCompleted | StatusFailed => 1
  end.

(** ** [net/http] headers *)

Module http.

Definition StatusOK : Z := 200.
Definition MethodPost : string := "POST".

Definition is_lower (c : ascii) : bool :=
  (Nat.leb 97 (nat_of_ascii c) && Nat.leb (nat_of_ascii c) 122)%bool.
Definition is_upper (c : ascii) : bool :=
  (Nat.leb 65 (nat_of_ascii c) && Nat.leb (nat_of_ascii c) 90)%bool.
Definition is_digit (c : ascii) : bool :=
  (Nat.leb 48 (nat_of_ascii c) && Nat.leb (nat_of_ascii c) 57)%bool.

Definition to_upper (c : ascii) : ascii :=
  if is_lower c then ascii_of_nat (nat_of_ascii c - 32) else c.
Definition to_lower (c : ascii) : ascii :=
  if is_upper c then ascii_of_nat (nat_of_ascii c + 32) else c.

(** The bytes of an RFC 7230 token. *)
Definition validHeaderFieldByte (c : ascii) : bool :=
  (is_lower c || is_upper c || is_digit c
   || existsb (Ascii.eqb c) (list_ascii_of_string "!#$%&'*+-.^_`|~"))%bool.

Fixpoint canonicalize (upper : bool) (s : string) : string :=
  match s with
  | EmptyString => EmptyString
  | String c s' =>
      let c' := if upper then to_upper c else to_lower c in
      String c' (canonicalize (Ascii.eqb c' "-") s')
  end.

(** [textproto.CanonicalMIMEHeaderKey]: the first letter and every letter
    after a hyphen in upper case, the others in lower case; a key with a
    byte that is not a token byte is left as it is. *)
Definition CanonicalMIMEHeaderKey (s : string) : string :=
  if forallb validHeaderFieldByte (list_ascii_of_string s)
  then canonicalize true s
  else s.

(** [http.Header] is a [map[string][]string]. *)
Abbreviation Header := (gmap string (list string)).

Definition Header_Set (h : Header) (key value : string) : Header :=
  <[CanonicalMIMEHeaderKey key := [value]]> h.

Definition Header_Get (h : Header) (key : string) : string :=
  match h !! CanonicalMIMEHeaderKey key with
  | Some (v :: _) => v
  | _ => ""
  end.

Record Request : Type := mkRequest {
  Method : string;
  URL : string;
  ReqHeader : Header;
  ReqBody : string;
}.

Record Response : Type := mkResponse {
  StatusCode : Z;
  RespHeader : Header;
  RespBody : string;
}.

End http.

(** [strings.HasPrefix s prefix] *)
Definition HasPrefix (s prefix : string) : bool := String.prefix prefix s.

(** ** The world the handler acts on *)

(** An object of the bucket: its bytes and the content type it was stored
    with, if any ([GetObjectOutput.ContentType] is a [*string]). *)
Record S3Object : Type := mkS3Object {
  Body : string;
  ContentType : option string;
}.

(** [RequestEvent]: the status code of the response and the nanoseconds the
    round trip took. *)
Record RequestEvent : Type := mkRequestEvent {
  EventStatusCode : Z;
  Duration : Z;
}.

(** A call to the outside, with its outcome. *)
Inductive Op : Type :=
  | OpPut (bucket key body : string) (err : option error)
  | OpGet (bucket key : string) (res : error + S3Object)
  | OpDelete (bucket key : string) (err : option error)
  | OpHTTP (req : http.Request) (res : error + http.Response)
  | OpEvent (ev : RequestEvent).

Inductive LogLevel : Type := InfoLevel | ErrorLevel.

Inductive LogValue : Type :=
  | LogString (s : string)
  | LogError (e : error).

Record LogEntry : Type := mkLogEntry {
  level : LogLevel;
  message : string;
  fields : list (string * LogValue);
}.

Record World : Type := mkWorld {
  store : gmap (string * string) S3Object;
  clock : Z;
  trace : list Op;
  logs : list LogEntry;
  telemetry : list error;
}.

Definition set_store (f : gmap (string * string) S3Object -> gmap (string * string) S3Object)
    (w : World) : World :=
  mkWorld (f (store w)) (clock w) (trace w) (logs w) (telemetry w).

Definition advance_clock (d : Z) (w : World) : World :=
  mkWorld (store w) (clock w + d) (trace w) (logs w) (telemetry w).

Definition record (op : Op) (w : World) : World :=
  mkWorld (store w) (clock w) (trace w ++ [op]) (logs w) (telemetry w).

Definition add_log (l : LogEntry) (w : World) : World :=
  mkWorld (store w) (clock w) (trace w) (logs w ++ [l]) (telemetry w).

Definition add_telemetry (e : error) (w : World) : World :=
  mkWorld (store w) (clock w) (trace w) (logs w) (telemetry w ++ [e]).

(** The calls of the handler that appear between two worlds. *)
Definition ops_between (w w' : World) : list Op :=
  drop (length (trace w)) (trace w').

(** What a call does to the bucket: a put that succeeded stores the bytes, a
    delete that succeeded removes the key, and nothing else changes it. *)
Definition replay_op (s : gmap (string * string) S3Object) (op : Op)
    : gmap (string * string) S3Object :=
  match op with
  | OpPut bucket key body None => <[(bucket, key) := mkS3Object body None]> s
  | OpDelete bucket key None => delete (bucket, key) s
  | _ => s
  end.

Definition replay (ops : list Op) (s : gmap (string * string) S3Object)
    : gmap (string * string) S3Object :=
  foldl replay_op s ops.

(** The events handed to the event sink among some calls. *)
Definition events_of (ops : list Op) : list RequestEvent :=
  omap (fun op => match op with OpEvent ev => Some ev | _ => None end) ops.

(** The number of deletions attempted among some calls. *)
Definition deletions_of (ops : list Op) : list (string * string) :=
  omap (fun op => match op with OpDelete b k _ => Some (b, k) | _ => None end) ops.

(** ** The state monad *)

Definition M (A : Type) : Type := World -> A * World.

#[global] Instance M_ret : MRet M := fun A (a : A) (w : World) => (a, w).
#[global] Instance M_bind : MBind M :=
  fun A B (k : A -> M B) (m : M A) (w : World) => let (a, w') := m w in k a w'.

Definition modify (f : World -> World) : M unit := fun w => (tt, f w).
Definition gets {A : Type} (f : World -> A) : M A := fun w => (f w, w).

(** ** The clients the handler holds *)

Inductive S3Call : Type :=
  | PutObject (bucket key body : string)
  | GetObject (bucket key : string)
  | DeleteObject (bucket key : string).

(** [awslib.Client]: which calls to the object store fail, and how. *)
Record awsClient : Type := mkAwsClient {
  s3_fault : World -> S3Call -> option error;
}.

(** The outcome of [http.Client.Do]: an error or a response, and the
    nanoseconds that passed on the clock meanwhile. *)
Record RoundTrip : Type := mkRoundTrip {
  rt_result : error + http.Response;
  rt_elapsed : Z;
}.

Record httpClient : Type := mkHttpClient {
  Do : World -> http.Request -> RoundTrip;
}.

Record AsyncMessageHandlerConfig : Type := mkConfig {
  ClusterUID : string;
  Bucket : string;
  APIName : string;
  TargetURL : string;
}.

Record AsyncMessageHandler : Type := mkHandler {
  config : AsyncMessageHandlerConfig;
  aws : awsClient;
  storagePath : string;
  client : httpClient;
}.

Record userPayload : Type := mkUserPayload {
  PayloadBody : string;
  PayloadContentType : string;
}.

(** [sqs.Message]; only the body is read. *)
Record Message : Type := mkMessage {
  MessageBody : option string;
}.

Definition CortexRequestIDHeader : string := "X-Cortex-Request-ID".

(** ** The object store client ([pkg/lib/aws], not among the sources) *)

Definition NoSuchKey : error := ExternalError "NoSuchKey".

(** Modelled from the spec: [awslib.Client.UploadStringToS3] is not among the
    sources. The Object Store Client is "durable key/value blob storage with
    put/get/delete-by-key"; a put that fails leaves the bucket as it was, one
    that succeeds stores the bytes under the key. *)
Definition UploadStringToS3 (c : awsClient) (str bucket key : string) : M (option error) :=
  fun w =>
    match s3_fault c w (PutObject bucket key str) with
    | Some e => (Some e, record (OpPut bucket key str (Some e)) w)
    | None =>
        (None, record (OpPut bucket key str None)
                 (set_store (insert (bucket, key) (mkS3Object str None)) w))
    end.

(** Modelled from the spec: [s3.GetObject] is not among the sources. A get
    fails when the client says so and when nothing is stored under the key;
    otherwise it yields the stored object. *)
Definition S3GetObject (c : awsClient) (bucket key : string) : M (error + S3Object) :=
  fun w =>
    match s3_fault c w (GetObject bucket key) with
    | Some e => (inl e, record (OpGet bucket key (inl e)) w)
    | None =>
        match store w !! (bucket, key) with
        | None => (inl NoSuchKey, record (OpGet bucket key (inl NoSuchKey)) w)
        | Some o => (inr o, record (OpGet bucket key (inr o)) w)
        end
    end.

(** Modelled from the spec: [awslib.Client.DeleteS3File] is not among the
    sources. A delete that fails leaves the bucket as it was; one that
    succeeds removes the key, whether or not it was there. *)
Definition DeleteS3File (c : awsClient) (bucket key : string) : M (option error) :=
  fun w =>
    match s3_fault c w (DeleteObject bucket key) with
    | Some e => (Some e, record (OpDelete bucket key (Some e)) w)
    | None =>
        (None, record (OpDelete bucket key None)
                 (set_store (delete (bucket, key)) w))
    end.

(** ** The logger, telemetry, the clock and the event sink *)

Definition Infow (msg : string) (kvs : list (string * LogValue)) : M unit :=
  modify (add_log (mkLogEntry InfoLevel msg kvs)).

Definition Errorw (msg : string) (kvs : list (string * LogValue)) : M unit :=
  modify (add_log (mkLogEntry ErrorLevel msg kvs)).

Definition telemetry_Error (e : error) : M unit := modify (add_telemetry e).

Definition time_Now : M Z := gets clock.

Definition time_Since (start : Z) : M Z := gets (fun w => clock w - start).

(** [RequestEventHandler.HandleEvent]: fire and forget. *)
Definition HandleEvent (ev : RequestEvent) : M unit := modify (record (OpEvent ev)).

(** [http.Client.Do]: the round trip takes time and yields an error or a
    response. *)
Definition httpClient_Do (c : httpClient) (req : http.Request) : M (error + http.Response) :=
  fun w =>
    let rt := Do c w req in
    (rt_result rt, record (OpHTTP req (rt_result rt)) (advance_clock (rt_elapsed rt) w)).

(** ** A concrete deployment

    One cluster, one API and one bucket, with keys of the shape
    [{clusterUID}/{apiName}/{requestID}/...], and a few ways in which the
    bucket and the user container can behave. JSON values are kept as the
    bytes that encode them; a body is taken to decode when it opens an
    object. *)

Module Demo.

Definition json_Decode (body : string) : option string :=
  if String.prefix "{" body then Some body else None.

Definition json_Marshal (v : string) : string := v.

Definition Status_String (s : Status) : string :=
  match s with
  | StatusInProgress => "in_progress"
  | StatusCompleted => "completed"
  | StatusFailed => "failed"
  end.

Definition StoragePath (clusterUID apiName : string) : string :=
  clusterUID +:+ "/" +:+ apiName.

Definition StatusPath (storagePath requestID : string) (s : Status) : string :=
  storagePath +:+ "/" +:+ requestID +:+ "/status/" +:+ Status_String s.

Definition PayloadPath (storagePath requestID : string) : string :=
  storagePath +:+ "/" +:+ requestID +:+ "/payload".

Definition ResultPath (storagePath requestID : string) : string :=
  storagePath +:+ "/" +:+ requestID +:+ "/result".

Definition NewRequest_err (method url : string) : option error := None.

(** A bucket that serves every call. *)
Definition bucket_up : awsClient := {| s3_fault := fun _ _ => None |}.

(** A bucket that refuses deletions. *)
Definition delete_denied : awsClient :=
  {| s3_fault := fun _ call =>
       match call with
       | DeleteObject _ _ => Some (ExternalError "AccessDenied")
       | _ => None
       end |}.

(** A user container that answers 200 with a JSON object after 5 ns. *)
Definition container_ok : httpClient :=
  {| Do := fun _ _ =>
       {| rt_result :=
            inr (http.mkResponse 200
                   (http.Header_Set ∅ "Content-Type" "application/json") "{}");
          rt_elapsed := 5 |} |}.

(** The response of [container_ok]. *)
Definition ok_response : http.Response :=
  http.mkResponse 200 (http.Header_Set ∅ "Content-Type" "application/json") "{}".

(** A user container that answers like [container_ok], on a clock that does
    not advance during the round trip. *)
Definition container_instant : httpClient :=
  {| Do := fun _ _ => {| rt_result := inr ok_response; rt_elapsed := 0 |} |}.

(** A user container that answers 500. *)
Definition container_500 : httpClient :=
  {| Do := fun _ _ =>
       {| rt_result :=
            inr (http.mkResponse 500
                   (http.Header_Set ∅ "Content-Type" "application/json") "{}");
          rt_elapsed := 5 |} |}.

(** A user container that answers 200 with plain text. *)
Definition container_text : httpClient :=
  {| Do := fun _ _ =>
       {| rt_result :=
            inr (http.mkResponse 200
                   (http.Header_Set ∅ "Content-Type" "text/plain") "{}");
          rt_elapsed := 5 |} |}.

(** A user container that cannot be reached. *)
Definition container_down : httpClient :=
  {| Do := fun _ _ =>
       {| rt_result := inl (ExternalError "connection refused"); rt_elapsed := 1 |} |}.

Definition cfg : AsyncMessageHandlerConfig :=
  {| ClusterUID := "cluster"; Bucket := "bucket"; APIName := "api";
     TargetURL := "http://localhost:8080" |}.

Definition handler (c : awsClient) (net : httpClient) : AsyncMessageHandler :=
  {| config := cfg; aws := c; storagePath := StoragePath "cluster" "api"; client := net |}.

(** A payload stored without a content type. *)
Definition input : S3Object := {| Body := "input"; ContentType := None |}.

Definition empty_bucket : World :=
  {| store := ∅; clock := 0; trace := []; logs := []; telemetry := [] |}.

Definition bucket_with_payload (requestID : string) : World :=
  {| store := {[ ("bucket", PayloadPath (StoragePath "cluster" "api") requestID) := input ]};
     clock := 0; trace := []; logs := []; telemetry := [] |}.

End Demo.

(** ** Scaling a node group ([updateNodeGroupScale] of the cluster command)

    [clusterconfig.Config] and [clusterconfig.NodeGroup] are not among the
    sources; the records below hold the fields the function reads or writes.
    The node groups are a slice of pointers, some of which may be nil.
    [exit.Ok()] ends the process: the function then does not return. *)

Module cluster.

Record NodeGroup : Type := mkNodeGroup {
  Name : string;
  MinInstances : Z;
  MaxInstances : Z;
}.

Record Config : Type := mkConfig {
  ClusterName : string;
  Region : string;
  NodeGroups : list (option NodeGroup);
}.

Inductive Error : Type :=
  | ErrorMinInstancesLowerThan (minValue : Z)
  | ErrorMaxInstancesLowerThan (minValue : Z)
  | ErrorMinInstancesGreaterThanMaxInstances (minInstances maxInstances : Z)
  | ErrorNodeGroupNotFound (targetNg clusterName region : string)
      (availableNodeGroups : list string).

(** What a call comes to: the process exits with status 0 after printing
    [stdout], or the function returns. *)
Inductive Outcome : Type :=
  | ExitOk (stdout : string)
  | Return (clusterConfig : Config) (idx : nat) (err : option Error).

(** [clusterconfig.Config{}] *)
Definition zero : Config := {| ClusterName := ""; Region := ""; NodeGroups := [] |}.

(** [%d] of [fmt] *)
Definition fmt_d (n : Z) : string := NilZero.string_of_int (Z.to_int n).

Definition newline : string := String (ascii_of_nat 10) EmptyString.

(** The names of the node groups that are not nil, in order. *)
Definition names (nodeGroups : list (option NodeGroup)) : list string :=
  omap (fmap Name) nodeGroups.

Section Scale.

(** [clusterconfig.MinInstancesKey] and [clusterconfig.MaxInstancesKey] *)
Variable MinInstancesKey : string.
Variable MaxInstancesKey : string.

(** What the user answers to [prompt.YesOrNo] on a message. *)
Variable YesOrNo : string -> bool.

Definition promptMessage (clusterName region : string) (ng : NodeGroup)
    (minReplicas maxReplicas : Z) : string :=
  let promptMessage := "" in
  let promptMessage :=
    if negb (MinInstances ng =? minReplicas) && negb (MaxInstances ng =? maxReplicas) then
      "your nodegroup named " +:+ Name ng +:+ " in your " +:+ clusterName
        +:+ " cluster in " +:+ region +:+ " will update its " +:+ MinInstancesKey
        +:+ " from " +:+ fmt_d (MinInstances ng) +:+ " to " +:+ fmt_d minReplicas
        +:+ " and update its " +:+ MaxInstancesKey
        +:+ " from " +:+ fmt_d (MaxInstances ng) +:+ " to " +:+ fmt_d maxReplicas
    else promptMessage in
  let promptMessage :=
    if (MinInstances ng =? minReplicas) && negb (MaxInstances ng =? maxReplicas) then
      "your nodegroup named " +:+ Name ng +:+ " in your " +:+ clusterName
        +:+ " cluster in " +:+ region +:+ " will update its " +:+ MaxInstancesKey
        +:+ " from " +:+ fmt_d (MaxInstances ng) +:+ " to " +:+ fmt_d maxReplicas
    else promptMessage in
  let promptMessage :=
    if negb (MinInstances ng =? minReplicas) && (MaxInstances ng =? maxReplicas) then
      "your nodegroup named " +:+ Name ng +:+ " in your " +:+ clusterName
        +:+ " cluster in " +:+ region +:+ " will update its " +:+ MinInstancesKey
        +:+ " from " +:+ fmt_d (MinInstances ng) +:+ " to " +:+ fmt_d minReplicas
    else promptMessage in
  promptMessage.

(** The body of the loop for the node group named [targetNg], found at
    [idx]. *)
Definition scale (clusterConfig : Config) (desiredMinReplicas desiredMaxReplicas : option Z)
    (disallowPrompt : bool) (idx : nat) (ng : NodeGroup) : Outcome :=
  let clusterName := ClusterName clusterConfig in
  let region := Region clusterConfig in
  let minReplicas :=
    match desiredMinReplicas with
    | None => MinInstances ng
    | Some n => n
    end in
  let maxReplicas :=
    match desiredMaxReplicas with
    | None => MaxInstances ng
    | Some n => n
    end in
  if minReplicas <? 0 then Return zero 0 (Some (ErrorMinInstancesLowerThan 0))
  else if maxReplicas <? 0 then Return zero 0 (Some (ErrorMaxInstancesLowerThan 0))
  else if minReplicas >? maxReplicas then
    Return zero 0 (Some (ErrorMinInstancesGreaterThanMaxInstances minReplicas maxReplicas))
  else if (MinInstances ng =? minReplicas) && (MaxInstances ng =? maxReplicas) then
    ExitOk ("the " +:+ Name ng +:+ " nodegroup in the " +:+ clusterName
              +:+ " cluster in " +:+ region
              +:+ " already has min instances set to " +:+ fmt_d minReplicas
              +:+ " and max instances set to " +:+ fmt_d maxReplicas +:+ newline)
  else if negb disallowPrompt
          && negb (YesOrNo (promptMessage clusterName region ng minReplicas maxReplicas))
  then ExitOk ""
  else
    Return
      {| ClusterName := clusterName;
         Region := region;
         NodeGroups :=
           <[idx := Some {| Name := Name ng;
                            MinInstances := minReplicas;
                            MaxInstances := maxReplicas |}]> (NodeGroups clusterConfig) |}
      idx None.

(** The loop over the node groups, from index [idx] on. *)
Fixpoint scan (clusterConfig : Config) (targetNg : string)
    (desiredMinReplicas desiredMaxReplicas : option Z) (disallowPrompt : bool)
    (idx : nat) (rest : list (option NodeGroup)) (availableNodeGroups : list string)
    : Outcome :=
  match rest with
  | [] =>
      Return zero 0
        (Some (ErrorNodeGroupNotFound targetNg (ClusterName clusterConfig)
                 (Region clusterConfig) availableNodeGroups))
  | None :: rest =>
      scan clusterConfig targetNg desiredMinReplicas desiredMaxReplicas disallowPrompt
        (S idx) rest availableNodeGroups
  | Some ng :: rest =>
      let availableNodeGroups := availableNodeGroups ++ [Name ng] in
      if decide (Name ng = targetNg) then
        scale clusterConfig desiredMinReplicas desiredMaxReplicas disallowPrompt idx ng
      else
        scan clusterConfig targetNg desiredMinReplicas desiredMaxReplicas disallowPrompt
          (S idx) rest availableNodeGroups
  end.

Definition updateNodeGroupScale (clusterConfig : Config) (targetNg : string)
    (desiredMinReplicas desiredMaxReplicas : option Z) (disallowPrompt : bool) : Outcome :=
  scan clusterConfig targetNg desiredMinReplicas desiredMaxReplicas disallowPrompt
    0 (NodeGroups clusterConfig) [].

End Scale.

(** A cluster with a nil entry and two node groups, and a user who agrees to
    every prompt. *)
Definition demo : Config :=
  {| ClusterName := "prod"; Region := "us-east-1";
     NodeGroups := [None;
                    Some {| Name := "cpu"; MinInstances := 1; MaxInstances := 5 |};
                    Some {| Name := "gpu"; MinInstances := 0; MaxInstances := 2 |}] |}.

Definition yes (message : string) : bool := true.
Definition no (message : string) : bool := false.

End cluster.

(** ** Bucket lifecycle rules ([setLifecycleRulesOnClusterUp] and
    [setLifecycleRulesOnClusterDown] of the cluster command) *)

(** [pkg/consts/consts.go] *)
Module consts.

Definition MaxBucketLifecycleRules : nat := 100.
Definition AsyncWorkloadsExpirationDays : Z := 7.

End consts.

Module lifecycle.

(** [s3.LifecycleExpiration]: a date or a number of days. *)
Inductive Expiration (Time : Type) : Type :=
  | Date (date : Time)
  | Days (days : Z).

Arguments Date {Time} date.
Arguments Days {Time} days.

(** [s3.LifecycleRule], with the fields the functions set. *)
Record LifecycleRule (Time : Type) : Type := mkLifecycleRule {
  RuleExpiration : Expiration Time;
  ID : string;
  Prefix : string;
  Status : string;
}.

Arguments mkLifecycleRule {Time} RuleExpiration ID Prefix Status.
Arguments RuleExpiration {Time} l.
Arguments ID {Time} l.
Arguments Prefix {Time} l.
Arguments Status {Time} l.

Inductive Error : Type :=
  | AwsError (msg : string)
  | ErrorClusterUIDsLimitInBucket (bucket : string).

(** A call to the bucket. *)
Inductive Call (Time : Type) : Type :=
  | DeleteLifecycleRules (bucket : string)
  | ListS3TopLevelDirs (bucket : string)
  | SetLifecycleRules (bucket : string) (rules : list (LifecycleRule Time)).

Arguments DeleteLifecycleRules {Time} bucket.
Arguments ListS3TopLevelDirs {Time} bucket.
Arguments SetLifecycleRules {Time} bucket rules.

(** [aws.Client]: how the calls to the bucket turn out. *)
Record Client (Time : Type) : Type := mkClient {
  delete_rules : string -> option Error;
  list_dirs : string -> Error + list string;
  set_rules : string -> list (LifecycleRule Time) -> option Error;
}.

Arguments delete_rules {Time} c.
Arguments list_dirs {Time} c.
Arguments set_rules {Time} c.

Section Rules.

(** [time.Time], and [libtime.GetCurrentUTCDate().Add(-24 * time.Hour)]. *)
Context {Time : Type}.
Variable yesterday : Time.

(** [s.EnsureSuffix] and [filepath.Join], which are not among the sources. *)
Variable EnsureSuffix : string -> string -> string.
Variable Join : string -> string -> string.

(** The rule that expires what a cluster left in the bucket. *)
Definition cluster_rule (clusterUID : string) : LifecycleRule Time :=
  {| RuleExpiration := Date yesterday;
     ID := "cluster-remove-" +:+ clusterUID;
     Prefix := EnsureSuffix clusterUID "/";
     Status := "Enabled" |}.

(** The rule that expires the async workloads of the new cluster. *)
Definition workloads_rule (newClusterUID : string) : LifecycleRule Time :=
  {| RuleExpiration := Days consts.AsyncWorkloadsExpirationDays;
     ID := "async-workloads-expiry-policy";
     Prefix := EnsureSuffix (Join newClusterUID "workloads") "/";
     Status := "Enabled" |}.

(** The function returns its error and, here, the calls it made. *)
Definition setLifecycleRulesOnClusterUp (awsClient : Client Time)
    (bucket newClusterUID : string) : option Error * list (Call Time) :=
  match delete_rules awsClient bucket with
  | Some err => (Some err, [DeleteLifecycleRules bucket])
  | None =>
      match list_dirs awsClient bucket with
      | inl err => (Some err, [DeleteLifecycleRules bucket; ListS3TopLevelDirs bucket])
      | inr clusterUIDs =>
          if Nat.ltb consts.MaxBucketLifecycleRules (length clusterUIDs + 1) then
            (Some (ErrorClusterUIDsLimitInBucket bucket),
             [DeleteLifecycleRules bucket; ListS3TopLevelDirs bucket])
          else
            let rules :=
              foldl (fun rules clusterUID => rules ++ [cluster_rule clusterUID])
                [] clusterUIDs in
            let rules := rules ++ [workloads_rule newClusterUID] in
            (set_rules awsClient bucket rules,
             [DeleteLifecycleRules bucket; ListS3TopLevelDirs bucket;
              SetLifecycleRules bucket rules])
      end
  end.

Definition setLifecycleRulesOnClusterDown (awsClient : Client Time) (bucket : string)
    : option Error * list (Call Time) :=
  match delete_rules awsClient bucket with
  | Some err => (Some err, [DeleteLifecycleRules bucket])
  | None =>
      let rules :=
        [{| RuleExpiration := Date yesterday;
            ID := "bucket-cleaner";
            Prefix := "";
            Status := "Enabled" |}] in
      (set_rules awsClient bucket rules,
       [DeleteLifecycleRules bucket; SetLifecycleRules bucket rules])
  end.

End Rules.

(** A bucket with the directories of two clusters, and one with a hundred. *)
Definition two_clusters : Client nat :=
  {| delete_rules := fun _ => None;
     list_dirs := fun _ => inr ["a"; "b"];
     set_rules := fun _ _ => None |}.

Definition full_bucket : Client nat :=
  {| delete_rules := fun _ => None;
     list_dirs := fun _ => inr (replicate 100 "c");
     set_rules := fun _ _ => None |}.

Definition dir_suffix (s suffix : string) : string := s +:+ suffix.
Definition dir_join (a b : string) : string := a +:+ "/" +:+ b.

End lifecycle.

(** ** The handler *)

(** [defer d] before [body]: [d] runs once [body] has computed what is
    returned, and cannot change it. *)
Definition defer {A : Type} (d : M unit) (body : M A) : M A :=
  r ← body; d;; mret r.

(** [NewAsyncMessageHandler], given [async.StoragePath] (which is not among
    the sources). The HTTP client is the handler's own ([&http.Client{}]);
    what the network does with its requests is the argument [net]. *)
Definition NewAsyncMessageHandler (StoragePath : string -> string -> string)
    (config : AsyncMessageHandlerConfig) (awsClient : awsClient) (net : httpClient)
    : AsyncMessageHandler :=
  {| config := config;
     aws := awsClient;
     storagePath := StoragePath (ClusterUID config) (APIName config);
     client := net |}.

Section Handler.

(** [encoding/json], on the bytes of a response body and back. *)
Context {JSONValue : Type}.
Variable json_Decode : string -> option JSONValue.
Variable json_Marshal : JSONValue -> string.

(** [pkg/types/async], which is not among the sources: the deterministic
    keys of a request's artifacts and the names of the states. *)
Variable StatusPath : string -> string -> Status -> string.
Variable PayloadPath : string -> string -> string.
Variable ResultPath : string -> string -> string.
Variable Status_String : Status -> string.

(** What [http.NewRequest] objects to in a method and a URL, if anything. *)
Variable NewRequest_err : string -> string -> option error.

Definition http_NewRequest (method url body : string) : error + http.Request :=
  match NewRequest_err method url with
  | Some err => inl err
  | None => inr (http.mkRequest method url ∅ body)
  end.

(** Modelled from the spec: [awslib.Client.UploadJSONToS3] is not among the
    sources. The result, "an arbitrary JSON-serializable value", is stored as
    its JSON bytes under the key. *)
Definition UploadJSONToS3 (c : awsClient) (obj : JSONValue) (bucket key : string)
    : M (option error) :=
  UploadStringToS3 c (json_Marshal obj) bucket key.

Definition updateStatus (h : AsyncMessageHandler) (requestID : string) (status : Status)
    : M (option error) :=
  let key := StatusPath (storagePath h) requestID status in
  UploadStringToS3 (aws h) "" (Bucket (config h)) key.

Definition getPayload (h : AsyncMessageHandler) (requestID : string)
    : M (error + userPayload) :=
  let key := PayloadPath (storagePath h) requestID in
  output ← S3GetObject (aws h) (Bucket (config h)) key;
  match output with
  | inl err => mret (inl (WithStack err))
  | inr output =>
      let contentType :=
        match ContentType output with
        | Some ct => ct
        | None => "application/octet-stream"
        end in
      mret (inr {| PayloadBody := Body output; PayloadContentType := contentType |})
  end.

Definition deletePayload (h : AsyncMessageHandler) (requestID : string) : M unit :=
  let key := PayloadPath (storagePath h) requestID in
  err ← DeleteS3File (aws h) (Bucket (config h)) key;
  match err with
  | Some err =>
      Errorw "failed to delete user payload" [("error", LogError err)];;
      telemetry_Error (Wrap err "failed to delete user payload")
  | None => mret tt
  end.

Definition submitRequest (h : AsyncMessageHandler) (payload : userPayload)
    (requestID : string) : M (error + JSONValue) :=
  match http_NewRequest http.MethodPost (TargetURL (config h)) (PayloadBody payload) with
  | inl err => mret (inl (WithStack err))
  | inr req =>
      let req :=
        http.mkRequest (http.Method req) (http.URL req)
          (http.Header_Set
             (http.Header_Set (http.ReqHeader req) "Content-Type" (PayloadContentType payload))
             CortexRequestIDHeader requestID)
          (http.ReqBody req) in
      startTime ← time_Now;
      response ← httpClient_Do (client h) req;
      match response with
      | inl err => mret (inl (ErrorUserContainerNotReachable err))
      | inr response =>
          duration ← time_Since startTime;
          let requestEvent :=
            {| EventStatusCode := http.StatusCode response; Duration := duration |} in
          if negb (http.StatusCode response =? http.StatusOK) then
            mret (inl (ErrorUserContainerResponseStatusCode (http.StatusCode response)))
          else if negb (HasPrefix (http.Header_Get (http.RespHeader response) "Content-Type")
                          "application/json") then
            mret (inl ErrorUserContainerResponseMissingJSONHeader)
          else
            match json_Decode (http.RespBody response) with
            | None => mret (inl ErrorUserContainerResponseNotJSONDecodable)
            | Some result => HandleEvent requestEvent;; mret (inr result)
            end
      end
  end.

Definition uploadResult (h : AsyncMessageHandler) (requestID : string) (result : JSONValue)
    : M (option error) :=
  let key := ResultPath (storagePath h) requestID in
  UploadJSONToS3 (aws h) result (Bucket (config h)) key.

Definition handleMessage (h : AsyncMessageHandler) (requestID : string) : M (option error) :=
  Infow "processing workload" [("id", LogString requestID)];;
  err ← updateStatus h requestID StatusInProgress;
  match err with
  | Some err =>
      mret (Some (Wrap err ("failed to update status to " +:+ Status_String StatusInProgress)))
  | None =>
      payload ← getPayload h requestID;
      match payload with
      | inl err =>
          updateStatusErr ← updateStatus h requestID StatusFailed;
          match updateStatusErr with
          | Some updateStatusErr =>
              Errorw "failed to update status after failure to get payload"
                [("id", LogString requestID); ("error", LogError updateStatusErr)]
          | None => mret tt
          end;;
          mret (Some (Wrap err "failed to get payload"))
      | inr payload =>
          defer (deletePayload h requestID)
            (result ← submitRequest h payload requestID;
             match result with
             | inl err =>
                 Errorw "failed to submit request to user container"
                   [("id", LogString requestID); ("error", LogError err)];;
                 updateStatusErr ← updateStatus h requestID StatusFailed;
                 match updateStatusErr with
                 | Some updateStatusErr =>
                     mret (Some (Wrap updateStatusErr
                                   ("failed to update status to " +:+ Status_String StatusFailed)))
                 | None => mret None
                 end
             | inr result =>
                 err ← uploadResult h requestID result;
                 match err with
                 | Some err =>
                     updateStatusErr ← updateStatus h requestID StatusFailed;
                     match updateStatusErr with
                     | Some updateStatusErr =>
                         Errorw "failed to update status after failure to upload result"
                           [("id", LogString requestID); ("error", LogError updateStatusErr)]
                     | None => mret tt
                     end;;
                     mret (Some (Wrap err "failed to upload result to storage"))
                 | None =>
                     err ← updateStatus h requestID StatusCompleted;
                     match err with
                     | Some err =>
                         mret (Some (Wrap err ("failed to update status to "
                                                 +:+ Status_String StatusCompleted)))
                     | None =>
                         Infow "workload processing complete" [("id", LogString requestID)];;
                         mret None
                     end
                 end
             end)
      end
  end.

Definition Handle (h : AsyncMessageHandler) (message : option Message) : M (option error) :=
  match message with
  | None => mret (Some (ErrorUnexpected "got unexpected nil SQS message"))
  | Some message =>
      match MessageBody message with
      | None => mret (Some (ErrorUnexpected "got unexpected sqs message with empty or nil body"))
      | Some body =>
          if decide (body = "") then
            mret (Some (ErrorUnexpected "got unexpected sqs message with empty or nil body"))
          else
            let requestID := body in
            err ← handleMessage h requestID;
            match err with
            | Some err => mret (Some err)
            | None => mret None
            end
      end
  end.

(** ** The calls of one invocation *)

(** The write of the marker of a state, the fetch and the deletion of the
    payload and the upload of the result, as they appear in the trace. *)
Definition marker (h : AsyncMessageHandler) (requestID : string) (s : Status)
    (err : option error) : Op :=
  OpPut (Bucket (config h)) (StatusPath (storagePath h) requestID s) "" err.

Definition fetch (h : AsyncMessageHandler) (requestID : string) (res : error + S3Object) : Op :=
  OpGet (Bucket (config h)) (PayloadPath (storagePath h) requestID) res.

Definition cleanup (h : AsyncMessageHandler) (requestID : string) (err : option error) : Op :=
  OpDelete (Bucket (config h)) (PayloadPath (storagePath h) requestID) err.

Definition upload (h : AsyncMessageHandler) (requestID : string) (result : JSONValue)
    (err : option error) : Op :=
  OpPut (Bucket (config h)) (ResultPath (storagePath h) requestID) (json_Marshal result) err.

(** The payload handed to the user container for a fetched object. *)
Definition payload_of (o : S3Object) : userPayload :=
  {| PayloadBody := Body o;
     PayloadContentType := default "application/octet-stream" (ContentType o) |}.

(** The request that is sent for a payload. *)
Definition forward_request (h : AsyncMessageHandler) (payload : userPayload)
    (requestID : string) : http.Request :=
  http.mkRequest "POST" (TargetURL (config h))
    (<[ "X-Cortex-Request-Id" := [requestID] ]>
       (<[ "Content-Type" := [PayloadContentType payload] ]> ∅))
    (PayloadBody payload).

(** A response the handler accepts: 200, a content type that starts with
    [application/json], and a body that decodes. *)
Definition accepted (resp : http.Response) : Prop :=
  http.StatusCode resp = 200
  /\ HasPrefix (http.Header_Get (http.RespHeader resp) "Content-Type") "application/json" = true
  /\ is_Some (json_Decode (http.RespBody resp)).

(** The forward succeeded: the connection did, and the response is accepted. *)
Definition forward_succeeded (res : error + http.Response) : Prop :=
  match res with
  | inl _ => False
  | inr resp => accepted resp
  end.

(** The forward failed for good: the connection failed, or the status is not
    200, or the content type is not JSON, or the body does not decode. *)
Definition forward_failed (res : error + http.Response) : Prop :=
  match res with
  | inl _ => True
  | inr resp =>
      http.StatusCode resp <> 200
      \/ HasPrefix (http.Header_Get (http.RespHeader resp) "Content-Type") "application/json"
         = false
      \/ json_Decode (http.RespBody resp) = None
  end.

(** What [submitRequest] returns and the calls it makes, case by case. *)
Inductive submitted (h : AsyncMessageHandler) (payload : userPayload) (requestID : string)
    (w : World) : error + JSONValue -> list Op -> Prop :=
  | submitted_bad_request e :
      NewRequest_err "POST" (TargetURL (config h)) = Some e ->
      submitted h payload requestID w (inl (WithStack e)) []
  | submitted_failed res err :
      rt_result (Do (client h) w (forward_request h payload requestID)) = res ->
      forward_failed res ->
      submitted h payload requestID w (inl err)
        [OpHTTP (forward_request h payload requestID) res]
  | submitted_ok resp result :
      rt_result (Do (client h) w (forward_request h payload requestID)) = inr resp ->
      accepted resp ->
      json_Decode (http.RespBody resp) = Some result ->
      submitted h payload requestID w (inr result)
        [OpHTTP (forward_request h payload requestID) (inr resp);
         OpEvent {| EventStatusCode := http.StatusCode resp;
                    Duration := rt_elapsed (Do (client h) w
                                              (forward_request h payload requestID)) |}].

(** The lines the handler logs. *)
Definition log_processing (requestID : string) : LogEntry :=
  mkLogEntry InfoLevel "processing workload" [("id", LogString requestID)].

Definition log_complete (requestID : string) : LogEntry :=
  mkLogEntry InfoLevel "workload processing complete" [("id", LogString requestID)].

Definition log_submit_failed (requestID : string) (err : error) : LogEntry :=
  mkLogEntry ErrorLevel "failed to submit request to user container"
    [("id", LogString requestID); ("error", LogError err)].

Definition log_status_failed (after : string) (requestID : string) (werr : option error)
    : list LogEntry :=
  match werr with
  | Some e =>
      [mkLogEntry ErrorLevel ("failed to update status after failure to " +:+ after)
         [("id", LogString requestID); ("error", LogError e)]]
  | None => []
  end.

Definition log_delete_failed (derr : option error) : list LogEntry :=
  match derr with
  | Some e => [mkLogEntry ErrorLevel "failed to delete user payload" [("error", LogError e)]]
  | None => []
  end.

(** What [handleMessage] returns, the calls it makes and the lines it logs,
    case by case. *)
Inductive handled (h : AsyncMessageHandler) (requestID : string)
    : option error -> list Op -> list LogEntry -> Prop :=
  | handled_in_progress_failed e :
      handled h requestID
        (Some (Wrap e ("failed to update status to " +:+ Status_String StatusInProgress)))
        [marker h requestID StatusInProgress (Some e)]
        [log_processing requestID]
  | handled_fetch_failed e werr :
      handled h requestID
        (Some (Wrap (WithStack e) "failed to get payload"))
        [marker h requestID StatusInProgress None;
         fetch h requestID (inl e);
         marker h requestID StatusFailed werr]
        (log_processing requestID :: log_status_failed "get payload" requestID werr)
  | handled_forward_failed o w err fwd werr derr :
      submitted h (payload_of o) requestID w (inl err) fwd ->
      handled h requestID
        ((fun e => Wrap e ("failed to update status to " +:+ Status_String StatusFailed))
           <$> werr)
        (marker h requestID StatusInProgress None :: fetch h requestID (inr o) :: fwd
           ++ [marker h requestID StatusFailed werr; cleanup h requestID derr])
        (log_processing requestID :: log_submit_failed requestID err
           :: log_delete_failed derr)
  | handled_upload_failed o w result fwd e werr derr :
      submitted h (payload_of o) requestID w (inr result) fwd ->
      handled h requestID
        (Some (Wrap e "failed to upload result to storage"))
        (marker h requestID StatusInProgress None :: fetch h requestID (inr o) :: fwd
           ++ [upload h requestID result (Some e);
               marker h requestID StatusFailed werr;
               cleanup h requestID derr])
        (log_processing requestID
           :: log_status_failed "upload result" requestID werr ++ log_delete_failed derr)
  | handled_completed_failed o w result fwd e derr :
      submitted h (payload_of o) requestID w (inr result) fwd ->
      handled h requestID
        (Some (Wrap e ("failed to update status to " +:+ Status_String StatusCompleted)))
        (marker h requestID StatusInProgress None :: fetch h requestID (inr o) :: fwd
           ++ [upload h requestID result None;
               marker h requestID StatusCompleted (Some e);
               cleanup h requestID derr])
        (log_processing requestID :: log_delete_failed derr)
  | handled_completed o w result fwd derr :
      submitted h (payload_of o) requestID w (inr result) fwd ->
      handled h requestID None
        (marker h requestID StatusInProgress None :: fetch h requestID (inr o) :: fwd
           ++ [upload h requestID result None;
               marker h requestID StatusCompleted None;
               cleanup h requestID derr])
        (log_processing requestID :: log_complete requestID :: log_delete_failed derr).

(** ** One delivery *)

(** A delivered message whose body is the request id. *)
Definition delivered (requestID : string) : option Message :=
  Some {| MessageBody := Some requestID |}.

(** The calls [Handle] makes on a message, from a world. *)
Definition Handle_ops (h : AsyncMessageHandler) (message : option Message) (w : World)
    : list Op :=
  ops_between w (Handle h message w).2.

(** A message [Handle] cannot take a request id from. *)
Definition empty_message (message : option Message) : Prop :=
  match message with
  | None => True
  | Some m => MessageBody m = None \/ MessageBody m = Some ""
  end.

(** The keys of the artifacts of one request are pairwise distinct
    ("a small, distinctly-keyed marker object per state reached"). *)
Definition distinct_keys (h : AsyncMessageHandler) (requestID : string) : Prop :=
  NoDup [StatusPath (storagePath h) requestID StatusInProgress;
         StatusPath (storagePath h) requestID StatusCompleted;
         StatusPath (storagePath h) requestID StatusFailed;
         PayloadPath (storagePath h) requestID;
         ResultPath (storagePath h) requestID].

(** A call to the object store that failed while a request was processed:
    the InProgress marker, the payload fetch, the result upload or the
    Completed marker. *)
Definition storage_failure (h : AsyncMessageHandler) (requestID : string) (ops : list Op)
    : Prop :=
  (exists e, marker h requestID StatusInProgress (Some e) ∈ ops)
  \/ (exists e, fetch h requestID (inl e) ∈ ops)
  \/ (exists result e, upload h requestID result (Some e) ∈ ops)
  \/ (exists e, marker h requestID StatusCompleted (Some e) ∈ ops).

(** A put or a get that failed. *)
Definition failed_access (op : Op) : Prop :=
  match op with
  | OpPut _ _ _ (Some _) | OpGet _ _ (inl _) => True
  | _ => False
  end.

(** Some fetch among the calls succeeded. *)
Definition fetch_succeeded (ops : list Op) : bool :=
  existsb (fun op => match op with OpGet _ _ (inr _) => true | _ => false end) ops.

(** The handler with the outcome of its deletions replaced by [f], and
    everything else as it was. *)
Definition with_delete_fault (f : World -> option error) (h : AsyncMessageHandler)
    : AsyncMessageHandler :=
  {| config := config h;
     aws := {| s3_fault := fun w call =>
                 match call with
                 | DeleteObject _ _ => f w
                 | _ => s3_fault (aws h) w call
                 end |};
     storagePath := storagePath h;
     client := client h |}.

(** The invariant of the data model, over the calls of any number of
    deliveries: once a terminal marker was written, no marker of lower rank
    is written for the request. *)
Definition terminal_markers_final (h : AsyncMessageHandler) (requestID : string)
    (calls : list Op) : Prop :=
  forall (i j : nat) (s s' : Status),
    (i < j)%nat ->
    is_terminal s = true ->
    (rank s' < rank s)%nat ->
    calls !! i = Some (marker h requestID s None) ->
    calls !! j <> Some (marker h requestID s' None).

(** A delivery that writes the Completed marker has uploaded the result and
    leaves no payload behind. *)
Definition completed_without_payload (h : AsyncMessageHandler) (requestID : string)
    (w : World) : Prop :=
  (exists i, Handle_ops h (delivered requestID) w !! i
             = Some (marker h requestID StatusCompleted None)) ->
  (exists result, upload h requestID result None ∈ Handle_ops h (delivered requestID) w)
  /\ store (Handle h (delivered requestID) w).2
       !! (Bucket (config h), PayloadPath (storagePath h) requestID) = None.

(** The keys of the artifacts of one request: the three markers, the
    payload and the result. *)
Definition artifact_keys (h : AsyncMessageHandler) (requestID : string) : list string :=
  [StatusPath (storagePath h) requestID StatusInProgress;
   StatusPath (storagePath h) requestID StatusCompleted;
   StatusPath (storagePath h) requestID StatusFailed;
   PayloadPath (storagePath h) requestID;
   ResultPath (storagePath h) requestID].

(** The requests sent to the user container among some calls. *)
Definition forwards_of (ops : list Op) : list http.Request :=
  omap (fun op => match op with OpHTTP req _ => Some req | _ => None end) ops.

(** What telemetry is told about some calls: the deletions that failed. *)
Definition telemetry_of (ops : list Op) : list error :=
  omap (fun op =>
          match op with
          | OpDelete _ _ (Some e) => Some (Wrap e "failed to delete user payload")
          | _ => None
          end) ops.

(** A bucket that serves every call. *)
Definition reliable (c : awsClient) : Prop :=
  forall (w : World) (call : S3Call), s3_fault c w call = None.

(** A user container that answers every request with the same response. *)
Definition answers (c : httpClient) (resp : http.Response) : Prop :=
  forall (w : World) (req : http.Request), rt_result (Do c w req) = inr resp.

(** A forward hands the event sink exactly one event, with the status code
    of the response and a positive duration, if and only if it succeeded. *)
Definition one_positive_event (h : AsyncMessageHandler) (payload : userPayload)
    (requestID : string) (w : World) : Prop :=
  forall (req : http.Request) (res : error + http.Response),
    ops_between w (submitRequest h payload requestID w).2 !! 0%nat
      = Some (OpHTTP req res) ->
    forward_succeeded res
    <-> exists ev,
          events_of (ops_between w (submitRequest h payload requestID w).2) = [ev]
          /\ (exists resp, res = inr resp /\ EventStatusCode ev = http.StatusCode resp)
          /\ 0 < Duration ev.

(** ** Running the handler *)

Lemma ops_between_app (w w' : World) (ops : list Op) :
  trace w' = trace w ++ ops -> ops_between w w' = ops.
Proof. intros H. unfold ops_between. rewrite H. apply drop_app_length. Qed.

Lemma canonical_content_type :
  http.CanonicalMIMEHeaderKey "Content-Type" = "Content-Type".
Proof. reflexivity. Qed.

Lemma canonical_request_id :
  http.CanonicalMIMEHeaderKey CortexRequestIDHeader = "X-Cortex-Request-Id".
Proof. reflexivity. Qed.

Ltac unfold_handler :=
  unfold Handle, handleMessage, defer, submitRequest, getPayload, deletePayload,
    updateStatus, uploadResult, UploadJSONToS3, http_NewRequest,
    UploadStringToS3, S3GetObject, DeleteS3File, httpClient_Do, HandleEvent,
    Infow, Errorw, telemetry_Error, time_Now, time_Since, modify, gets,
    mbind, M_bind, mret, M_ret, http.Header_Set.

Ltac case_call :=
  match goal with
  | |- context [s3_fault ?c ?w ?call] =>
      let E := fresh "Ecall" in destruct (s3_fault c w call) eqn:E
  | |- context [?m !! (?b, ?k)] =>
      let E := fresh "Eget" in destruct (m !! (b, k)) eqn:E
  | |- context [NewRequest_err ?m ?u] =>
      let E := fresh "Ereq" in destruct (NewRequest_err m u) eqn:E
  | |- context [rt_result (Do ?c ?w ?req)] =>
      let E := fresh "Edo" in destruct (rt_result (Do c w req)) eqn:E
  end; cbn -[String.append String.prefix].

Lemma submitted_replay h payload requestID w res ops s :
  submitted h payload requestID w res ops -> foldl replay_op s ops = s.
Proof. by destruct 1. Qed.

Lemma submitRequest_submitted (h : AsyncMessageHandler) (payload : userPayload)
    (requestID : string) (w : World) :
  exists ops,
    trace (submitRequest h payload requestID w).2 = trace w ++ ops
    /\ store (submitRequest h payload requestID w).2 = store w
    /\ logs (submitRequest h payload requestID w).2 = logs w
    /\ submitted h payload requestID w (submitRequest h payload requestID w).1 ops.
Proof.
  unfold_handler. cbn -[String.append String.prefix].
  case_call.
  { exists []. rewrite app_nil_r. split_and!; [done .. | by constructor]. }
  change (http.mkRequest http.MethodPost _ _ _)
    with (forward_request h payload requestID).
  case_call.
  { eexists. split_and!; [done .. |]. by eapply submitted_failed. }
  destruct (http.StatusCode r =? http.StatusOK) eqn:Est; cbn -[String.append String.prefix].
  2:{ eexists. split_and!; [done .. |]. eapply submitted_failed; [done |].
      left. by apply Z.eqb_neq. }
  apply Z.eqb_eq in Est.
  destruct (HasPrefix _ _) eqn:Ect; cbn -[String.append String.prefix].
  2:{ eexists. split_and!; [done .. |]. eapply submitted_failed; [done |].
      right; by left. }
  destruct (json_Decode _) eqn:Ejs; cbn -[String.append String.prefix].
  2:{ eexists. split_and!; [done .. |]. eapply submitted_failed; [done |].
      right; by right. }
  eexists. split_and!; [by rewrite <- app_assoc | done .. |].
  replace (clock w + _ - clock w) with
    (rt_elapsed (Do (client h) w (forward_request h payload requestID))) by lia.
  eapply submitted_ok; [done | | done].
  split_and!; [done | done | by rewrite Ejs].
Qed.

Ltac unfold_handleMessage :=
  unfold Handle, handleMessage, defer, getPayload, deletePayload,
    updateStatus, uploadResult, UploadJSONToS3,
    UploadStringToS3, S3GetObject, DeleteS3File,
    Infow, Errorw, telemetry_Error, modify, gets,
    mbind, M_bind, mret, M_ret.

Lemma handleMessage_handled (h : AsyncMessageHandler) (requestID : string) (w : World) :
  exists ops lgs,
    trace (handleMessage h requestID w).2 = trace w ++ ops
    /\ store (handleMessage h requestID w).2 = replay ops (store w)
    /\ logs (handleMessage h requestID w).2 = logs w ++ lgs
    /\ handled h requestID (handleMessage h requestID w).1 ops lgs.
Proof.
  unfold_handleMessage. cbn -[String.append String.prefix].
  case_call.
  { do 2 eexists. split_and!; [reflexivity | reflexivity | reflexivity | constructor]. }
  case_call.
  { case_call; (do 2 eexists; split_and!;
      [ by rewrite <- !app_assoc | reflexivity | by rewrite <- ?app_assoc
      | first [ eapply (handled_fetch_failed _ _ _ (Some _))
              | eapply (handled_fetch_failed _ _ _ None) ] ]). }
  case_call.
  2:{ case_call; (do 2 eexists; split_and!;
      [ by rewrite <- !app_assoc | reflexivity | by rewrite <- ?app_assoc
      | first [ eapply (handled_fetch_failed _ _ _ (Some _))
              | eapply (handled_fetch_failed _ _ _ None) ] ]). }
  change (mkUserPayload _ _) with (payload_of s).
  match goal with
  | |- context [submitRequest h ?p requestID ?w1] =>
      destruct (submitRequest_submitted h p requestID w1)
        as (fwd & Htr & Hst & Hlg & Hsub);
      destruct (submitRequest h p requestID w1) as [res w2]
  end.
  cbn -[String.append String.prefix] in Htr, Hst, Hlg, Hsub.
  destruct res as [err | result]; cbn -[String.append String.prefix].
  { do 2 case_call;
      (do 2 eexists; split_and!;
       [ rewrite Htr, <- !app_assoc; reflexivity
       | rewrite Hst; cbn;
         rewrite foldl_app, (submitted_replay _ _ _ _ _ _ _ Hsub); reflexivity
       | rewrite Hlg, <- ?app_assoc; reflexivity
       | first [ eapply (handled_forward_failed _ _ _ _ _ _ (Some _) (Some _))
               | eapply (handled_forward_failed _ _ _ _ _ _ (Some _) None)
               | eapply (handled_forward_failed _ _ _ _ _ _ None (Some _))
               | eapply (handled_forward_failed _ _ _ _ _ _ None None) ];
         eassumption ]). }
  case_call.
  { do 2 case_call;
      (do 2 eexists; split_and!;
       [ rewrite Htr, <- !app_assoc; reflexivity
       | rewrite Hst; cbn;
         rewrite foldl_app, (submitted_replay _ _ _ _ _ _ _ Hsub); reflexivity
       | rewrite Hlg, <- ?app_assoc; reflexivity
       | first [ eapply (handled_upload_failed _ _ _ _ _ _ _ (Some _) (Some _))
               | eapply (handled_upload_failed _ _ _ _ _ _ _ (Some _) None)
               | eapply (handled_upload_failed _ _ _ _ _ _ _ None (Some _))
               | eapply (handled_upload_failed _ _ _ _ _ _ _ None None) ];
         eassumption ]). }
  do 2 case_call;
    (do 2 eexists; split_and!;
     [ rewrite Htr, <- !app_assoc; reflexivity
     | rewrite Hst; cbn;
       rewrite foldl_app, (submitted_replay _ _ _ _ _ _ _ Hsub); reflexivity
     | rewrite Hlg, <- ?app_assoc; reflexivity
     | first [ eapply (handled_completed_failed _ _ _ _ _ _ _ (Some _))
             | eapply (handled_completed_failed _ _ _ _ _ _ _ None)
             | eapply (handled_completed _ _ _ _ _ _ (Some _))
             | eapply (handled_completed _ _ _ _ _ _ None) ];
       eassumption ]).
Qed.

Lemma Handle_delivered (h : AsyncMessageHandler) (requestID : string) (w : World) :
  requestID <> "" ->
  Handle h (delivered requestID) w = handleMessage h requestID w.
Proof.
  intros Hne. unfold Handle, delivered. cbn -[handleMessage].
  destruct (decide (requestID = "")) as [|_]; [done |].
  unfold mbind, M_bind, mret, M_ret.
  by destruct (handleMessage h requestID w) as [[e|] w'].
Qed.

Lemma Handle_handled (h : AsyncMessageHandler) (requestID : string) (w : World) :
  requestID <> "" ->
  exists lgs,
    trace (Handle h (delivered requestID) w).2
      = trace w ++ Handle_ops h (delivered requestID) w
    /\ store (Handle h (delivered requestID) w).2
      = replay (Handle_ops h (delivered requestID) w) (store w)
    /\ logs (Handle h (delivered requestID) w).2 = logs w ++ lgs
    /\ handled h requestID (Handle h (delivered requestID) w).1
         (Handle_ops h (delivered requestID) w) lgs.
Proof.
  intros Hne. unfold Handle_ops. rewrite (Handle_delivered _ _ _ Hne).
  destruct (handleMessage_handled h requestID w) as (ops & lgs & Htr & Hst & Hlg & Hh).
  rewrite (ops_between_app _ _ _ Htr). by exists lgs.
Qed.

Lemma forward_failed_not_succeeded (res : error + http.Response) :
  forward_failed res <-> ~ forward_succeeded res.
Proof.
  destruct res as [e | resp]; cbn; [tauto |].
  unfold accepted. split.
  - intros [H | [H | H]] (H1 & H2 & H3); [done | congruence |].
    rewrite H in H3. by destruct H3.
  - intros Hn.
    destruct (decide (http.StatusCode resp = 200)) as [H1 | H1]; [| by left].
    destruct (HasPrefix _ _) eqn:H2; [| right; by left].
    destruct (json_Decode (http.RespBody resp)) as [v |] eqn:H3; [| right; by right].
    exfalso. apply Hn. split_and!; [done | done | eauto].
Qed.

(** Only the terminal failures of the forward make [submitRequest] fail
    after a request was sent, and success sends exactly one event. *)
Lemma submitted_inv h payload requestID w res fwd :
  submitted h payload requestID w res fwd ->
  match res with
  | inl _ =>
      (NewRequest_err "POST" (TargetURL (config h)) <> None /\ fwd = [])
      \/ exists r, forward_failed r
                   /\ fwd = [OpHTTP (forward_request h payload requestID) r]
  | inr _ =>
      exists resp ev, accepted resp
        /\ fwd = [OpHTTP (forward_request h payload requestID) (inr resp); OpEvent ev]
  end.
Proof.
  destruct 1 as [e He | |]; [left; split; [by rewrite He | done] | eauto ..].
Qed.

Ltac run_handle h requestID w Hne :=
  let lgs := fresh "lgs" in
  let Htr := fresh "Htr" in
  let Hst := fresh "Hst" in
  let Hlg := fresh "Hlg" in
  let Hh := fresh "Hh" in
  destruct (Handle_handled h requestID w Hne) as (lgs & Htr & Hst & Hlg & Hh);
  generalize dependent (Handle_ops h (delivered requestID) w);
  generalize dependent (Handle h (delivered requestID) w);
  let ret := fresh "ret" in
  let w' := fresh "w'" in
  let ops := fresh "ops" in
  intros [ret w'] ops; cbn [fst snd]; intros.

Ltac forward_cases H :=
  apply submitted_inv in H; cbn beta iota in H;
  first [ destruct H as [[? ->] | (? & ? & ->)]
        | destruct H as (? & ? & ? & ->) ].

(** ** Properties of one delivery *)

(** C6. A message that is nil, or whose body is nil or the empty string, is
    answered with an "unexpected" error, and the world is left exactly as it
    was: no marker is written and no call is made to the object store or to
    the user container. *)
Theorem Handle_empty_message (h : AsyncMessageHandler) (message : option Message)
    (w : World) :
  empty_message message ->
  is_unexpected (Handle h message w).1
  /\ (Handle h message w).2 = w
  /\ Handle_ops h message w = [].
Proof.
  intros Hm. unfold Handle_ops, ops_between, is_unexpected.
  destruct message as [[[body|]]|]; cbn in Hm |- *.
  - destruct Hm as [? | [= ->]]; [done |]. cbn.
    split_and!; [eauto | done | apply drop_all].
  - split_and!; [eauto | done | apply drop_all].
  - split_and!; [eauto | done | apply drop_all].
Qed.

(** C1. When the InProgress marker was written, the payload was fetched and
    the forward to the user container failed for good (no connection, a
    status other than 200, a content type that is not JSON, or a body that
    does not decode), the next call is the write of the Failed marker; if
    that write succeeds [Handle] returns nil, and if it fails [Handle]
    returns an error. *)
Theorem Handle_forward_failed (h : AsyncMessageHandler) (requestID : string) (w : World)
    (o : S3Object) (req : http.Request) (res : error + http.Response) :
  requestID <> "" ->
  Handle_ops h (delivered requestID) w !! 0%nat
    = Some (marker h requestID StatusInProgress None) ->
  Handle_ops h (delivered requestID) w !! 1%nat = Some (fetch h requestID (inr o)) ->
  Handle_ops h (delivered requestID) w !! 2%nat = Some (OpHTTP req res) ->
  forward_failed res ->
  exists werr,
    Handle_ops h (delivered requestID) w !! 3%nat
      = Some (marker h requestID StatusFailed werr)
    /\ (werr = None -> (Handle h (delivered requestID) w).1 = None)
    /\ (werr <> None -> (Handle h (delivered requestID) w).1 <> None).
Proof.
  intros Hne H0 H1 H2 Hfail. run_handle h requestID w Hne.
  destruct Hh as [| | ? ? ? ? ? ? Hsub | ? ? ? ? ? ? ? Hsub
                 | ? ? ? ? ? ? Hsub | ? ? ? ? ? Hsub]; simplify_eq/=.
  - forward_cases Hsub; simplify_eq/=.
    exists werr. split_and!; [done | by intros -> | by destruct werr].
  - forward_cases Hsub; simplify_eq/=.
    apply (forward_failed_not_succeeded (inr _)) in Hfail. by destruct Hfail.
  - forward_cases Hsub; simplify_eq/=.
    apply (forward_failed_not_succeeded (inr _)) in Hfail. by destruct Hfail.
  - forward_cases Hsub; simplify_eq/=.
    apply (forward_failed_not_succeeded (inr _)) in Hfail. by destruct Hfail.
Qed.

Lemma handled_failed_access h requestID res ops lgs op :
  handled h requestID res ops lgs -> op ∈ ops -> failed_access op -> res <> None.
Proof.
  intros Hh Hin Hop.
  destruct Hh as [| | ? ? ? ? ? ? Hsub | ? ? ? ? ? ? ? Hsub
                 | ? ? ? ? ? ? Hsub | ? ? ? ? ? Hsub]; try done.
  - forward_cases Hsub; destruct werr; try done;
      set_unfold; intuition (subst; done).
  - forward_cases Hsub; set_unfold; intuition (subst; done).
Qed.

(** C2. Whenever a call to the object store fails while the request is
    processed (the write of the InProgress marker, the fetch of the payload,
    the upload of the result or the write of the Completed marker), [Handle]
    returns an error, whatever became of a Failed marker. *)
Theorem Handle_storage_failure (h : AsyncMessageHandler) (requestID : string) (w : World) :
  requestID <> "" ->
  storage_failure h requestID (Handle_ops h (delivered requestID) w) ->
  (Handle h (delivered requestID) w).1 <> None.
Proof.
  intros Hne Hfail. run_handle h requestID w Hne.
  destruct Hfail as [[e He] | [[e He] | [(v & e & He) | [e He]]]];
    by eapply handled_failed_access.
Qed.

Lemma distinct_keys_ne (h : AsyncMessageHandler) (requestID : string) :
  distinct_keys h requestID ->
  let sp := storagePath h in
  StatusPath sp requestID StatusCompleted <> StatusPath sp requestID StatusInProgress
  /\ StatusPath sp requestID StatusFailed <> StatusPath sp requestID StatusInProgress
  /\ StatusPath sp requestID StatusFailed <> StatusPath sp requestID StatusCompleted
  /\ ResultPath sp requestID <> StatusPath sp requestID StatusCompleted
  /\ ResultPath sp requestID <> StatusPath sp requestID StatusFailed.
Proof.
  unfold distinct_keys. rewrite !NoDup_cons, !not_elem_of_cons.
  intros (H1 & H2 & H3 & H4 & _). cbn. intuition congruence.
Qed.

(** Every run starts with the write of the InProgress marker, and goes on
    only if that write succeeded. *)
Lemma handled_head h requestID res ops lgs :
  handled h requestID res ops lgs ->
  (exists e, ops = [marker h requestID StatusInProgress (Some e)])
  \/ (exists tl, ops = marker h requestID StatusInProgress None :: tl).
Proof. destruct 1; eauto. Qed.

(** C4. Within one invocation, a Completed or Failed marker is written only
    after a write of the InProgress marker of the same request succeeded. *)
Theorem terminal_marker_after_in_progress (h : AsyncMessageHandler) (requestID : string)
    (w : World) (i : nat) (s : Status) (err : option error) :
  requestID <> "" ->
  distinct_keys h requestID ->
  is_terminal s = true ->
  Handle_ops h (delivered requestID) w !! i = Some (marker h requestID s err) ->
  exists j, (j < i)%nat
    /\ Handle_ops h (delivered requestID) w !! j
       = Some (marker h requestID StatusInProgress None).
Proof.
  intros Hne Hk Hs Hi. run_handle h requestID w Hne.
  apply distinct_keys_ne in Hk as (Hc & Hf & _).
  assert (forall e, marker h requestID s err <> marker h requestID StatusInProgress e)
    as Hm by (intros e; destruct s; cbn in *; unfold marker; congruence).
  destruct (handled_head _ _ _ _ _ Hh) as [[e ->] | [tl ->]].
  - destruct i as [| i]; cbn in Hi; [| done].
    destruct (Hm (Some e)). congruence.
  - destruct i as [| i]; cbn in Hi.
    + destruct (Hm None). congruence.
    + exists 0%nat. split; [lia | done].
Qed.

Ltac at_index H :=
  repeat match type of H with
         | (_ :: _) !! ?i = Some _ => destruct i as [| i]; cbn in H
         | [] !! _ = Some _ => done
         end.

(** C3, as the handler has it. Every invocation starts by writing the
    InProgress marker, whatever markers the bucket already holds; within one
    invocation, once the write of a terminal marker (Completed or Failed) was
    attempted, no marker of that request is written any more. *)
Theorem no_marker_after_terminal (h : AsyncMessageHandler) (requestID : string)
    (w : World) :
  requestID <> "" ->
  distinct_keys h requestID ->
  (exists err,
     Handle_ops h (delivered requestID) w !! 0%nat
       = Some (marker h requestID StatusInProgress err))
  /\ forall (i j : nat) (s s' : Status) (err err' : option error),
       is_terminal s = true ->
       (i < j)%nat ->
       Handle_ops h (delivered requestID) w !! i = Some (marker h requestID s err) ->
       Handle_ops h (delivered requestID) w !! j <> Some (marker h requestID s' err').
Proof.
  intros Hne Hk. run_handle h requestID w Hne.
  apply distinct_keys_ne in Hk as (Hc & Hf & Hfc & Hrc & Hrf). cbn zeta in *.
  split.
  { destruct (handled_head _ _ _ _ _ Hh) as [[e ->] | [tl ->]]; eauto. }
  intros i j s s' err err' Hs Hij Hi Hj.
  assert (s = StatusCompleted \/ s = StatusFailed) as Hs'
    by (destruct s; [done | by left | by right]).
  clear Hs.
  destruct Hh as [| | ? ? ? ? ? ? Hsub | ? ? ? ? ? ? ? Hsub
                 | ? ? ? ? ? ? Hsub | ? ? ? ? ? Hsub];
    try forward_cases Hsub; unfold marker, upload, fetch, cleanup in Hi, Hj;
    cbn [app] in Hi, Hj;
    at_index Hi; try discriminate Hi;
    at_index Hj; try discriminate Hj; try lia;
    destruct Hs' as [-> | ->]; congruence.
Qed.

(** C7. When the InProgress marker was written and the fetch of the payload
    fails, the write of the Failed marker is the next and last call; a
    failure of that write only adds a line to the log; [Handle] returns the
    fetch error, wrapped; and if the Failed marker was written, both markers
    are in the bucket. *)
Theorem Handle_fetch_failed (h : AsyncMessageHandler) (requestID : string) (w : World)
    (e : error) :
  requestID <> "" ->
  Handle_ops h (delivered requestID) w !! 0%nat
    = Some (marker h requestID StatusInProgress None) ->
  Handle_ops h (delivered requestID) w !! 1%nat = Some (fetch h requestID (inl e)) ->
  exists werr,
    Handle_ops h (delivered requestID) w
      = [marker h requestID StatusInProgress None;
         fetch h requestID (inl e);
         marker h requestID StatusFailed werr]
    /\ (Handle h (delivered requestID) w).1
       = Some (Wrap (WithStack e) "failed to get payload")
    /\ logs (Handle h (delivered requestID) w).2
       = logs w ++ log_processing requestID
                :: log_status_failed "get payload" requestID werr
    /\ (werr = None ->
        is_Some (store (Handle h (delivered requestID) w).2
                   !! (Bucket (config h),
                       StatusPath (storagePath h) requestID StatusInProgress))
        /\ is_Some (store (Handle h (delivered requestID) w).2
                      !! (Bucket (config h),
                          StatusPath (storagePath h) requestID StatusFailed))).
Proof.
  intros Hne H0 H1. run_handle h requestID w Hne.
  destruct Hh; simplify_eq/=.
  exists werr. split_and!; [done | done | done |].
  intros ->. rewrite Hst. cbn. split.
  - rewrite lookup_insert. case_decide; [done |]. by rewrite lookup_insert_eq.
  - by rewrite lookup_insert_eq.
Qed.

Lemma defer_fst {A : Type} (d : M unit) (body : M A) (w : World) :
  (defer d body w).1 = (body w).1.
Proof.
  unfold defer, mbind, M_bind, mret, M_ret.
  destruct (body w) as [r w1]. by destruct (d w1).
Qed.

Lemma handleMessage_delete_independent (f : World -> option error)
    (h : AsyncMessageHandler) (requestID : string) (w : World) :
  (handleMessage (with_delete_fault f h) requestID w).1 = (handleMessage h requestID w).1.
Proof.
  unfold handleMessage, getPayload, updateStatus, UploadStringToS3, S3GetObject,
    Infow, modify, mbind, M_bind, mret, M_ret.
  cbn -[defer submitRequest deletePayload uploadResult String.append].
  case_call; [done |].
  cbn -[defer submitRequest deletePayload uploadResult String.append].
  case_call.
  { cbn -[String.append]. by case_call. }
  cbn -[defer submitRequest deletePayload uploadResult String.append].
  case_call.
  2:{ cbn -[String.append]. by case_call. }
  cbn -[defer submitRequest deletePayload uploadResult String.append].
  by rewrite !defer_fst.
Qed.

(** C8. The deletion of the payload is attempted exactly once when the
    fetch of the payload succeeded, whatever happens afterwards, and not at
    all when it did not; and what [Handle] returns does not depend on how
    deletions turn out. *)
Theorem payload_deleted_once (h : AsyncMessageHandler) (requestID : string) (w : World) :
  requestID <> "" ->
  deletions_of (Handle_ops h (delivered requestID) w)
    = (if fetch_succeeded (Handle_ops h (delivered requestID) w)
       then [(Bucket (config h), PayloadPath (storagePath h) requestID)]
       else [])
  /\ forall f : World -> option error,
       (Handle (with_delete_fault f h) (delivered requestID) w).1
       = (Handle h (delivered requestID) w).1.
Proof.
  intros Hne. split.
  - run_handle h requestID w Hne.
    destruct Hh as [| | ? ? ? ? ? ? Hsub | ? ? ? ? ? ? ? Hsub
                   | ? ? ? ? ? ? Hsub | ? ? ? ? ? Hsub];
      try forward_cases Hsub; reflexivity.
  - intros f. rewrite !Handle_delivered by done.
    apply handleMessage_delete_independent.
Qed.

(** C9, as the handler has it. For a forward to the user container, the
    event sink is handed exactly one event if the forward succeeded (200, a
    JSON content type and a body that decodes) and none otherwise; the event
    carries the status code of the response and the time measured for the
    round trip, which is positive exactly when the clock advanced
    meanwhile. *)
Theorem submitRequest_event (h : AsyncMessageHandler) (payload : userPayload)
    (requestID : string) (w : World) (req : http.Request) (res : error + http.Response) :
  ops_between w (submitRequest h payload requestID w).2 !! 0%nat = Some (OpHTTP req res) ->
  let evs := events_of (ops_between w (submitRequest h payload requestID w).2) in
  (forward_succeeded res <-> exists ev, evs = [ev])
  /\ (~ forward_succeeded res -> evs = [])
  /\ forall ev, ev ∈ evs ->
       (exists resp, res = inr resp /\ EventStatusCode ev = http.StatusCode resp)
       /\ Duration ev = rt_elapsed (Do (client h) w req)
       /\ (0 < Duration ev <-> 0 < rt_elapsed (Do (client h) w req)).
Proof.
  intros Hop.
  destruct (submitRequest_submitted h payload requestID w) as (ops & Htr & _ & _ & Hsub).
  rewrite (ops_between_app _ _ _ Htr) in *.
  destruct Hsub as [e He | r err Hr Hfail | resp result Hr Hacc Hdec];
    simplify_eq/=.
  - apply forward_failed_not_succeeded in Hfail.
    split_and!; [| done | by intros ev ?%elem_of_nil].
    split; [done | by intros [ev ?]].
  - split_and!.
    + split; [eauto | done].
    + by intros [].
    + intros ev ->%list_elem_of_singleton. cbn. eauto.
Qed.

(** C10. The request forwarded for a fetched payload carries the content
    type the payload was stored with, and [application/octet-stream] if it
    was stored with none. *)
Theorem forward_content_type (h : AsyncMessageHandler) (requestID : string) (w : World)
    (o : S3Object) :
  requestID <> "" ->
  NewRequest_err "POST" (TargetURL (config h)) = None ->
  Handle_ops h (delivered requestID) w !! 1%nat = Some (fetch h requestID (inr o)) ->
  exists req res,
    Handle_ops h (delivered requestID) w !! 2%nat = Some (OpHTTP req res)
    /\ http.Header_Get (http.ReqHeader req) "Content-Type"
       = match ContentType o with
         | None => "application/octet-stream"
         | Some contentType => contentType
         end.
Proof.
  intros Hne Hreq H1. run_handle h requestID w Hne.
  assert (forall ct : string,
             http.Header_Get
               (<["X-Cortex-Request-Id" := [requestID]]> (<["Content-Type" := [ct]]> ∅))
               "Content-Type" = ct) as Hct.
  { intros ct. unfold http.Header_Get.
    rewrite canonical_content_type, lookup_insert_ne by done.
    by rewrite lookup_insert_eq. }
  destruct Hh as [| | ? ? ? ? ? ? Hsub | ? ? ? ? ? ? ? Hsub
                 | ? ? ? ? ? ? Hsub | ? ? ? ? ? Hsub];
    try forward_cases Hsub; simplify_eq/=;
    (do 2 eexists; split; [reflexivity |];
     etrans; [exact (Hct _) |]; unfold payload_of; by destruct (ContentType o)).
Qed.

(** ** More on one delivery *)

Lemma distinct_keys_payload (h : AsyncMessageHandler) (requestID : string) :
  distinct_keys h requestID ->
  StatusPath (storagePath h) requestID StatusInProgress
    <> PayloadPath (storagePath h) requestID.
Proof.
  unfold distinct_keys. rewrite !NoDup_cons, !not_elem_of_cons.
  intros ((_ & _ & H & _) & _). exact H.
Qed.

Ltac run_reliable Hrel :=
  repeat (rewrite Hrel; cbn -[String.append String.prefix]).

(** A delivery on a bucket that serves every call, with the payload in
    place and a container that answers with a response the handler accepts. *)
Lemma completed_run (h : AsyncMessageHandler) (requestID : string) (w : World)
    (o : S3Object) (resp : http.Response) (result : JSONValue) :
  requestID <> "" ->
  distinct_keys h requestID ->
  reliable (aws h) ->
  store w !! (Bucket (config h), PayloadPath (storagePath h) requestID) = Some o ->
  NewRequest_err "POST" (TargetURL (config h)) = None ->
  answers (client h) resp ->
  accepted resp ->
  json_Decode (http.RespBody resp) = Some result ->
  (Handle h (delivered requestID) w).1 = None
  /\ (exists ev,
        EventStatusCode ev = http.StatusCode resp
        /\ Handle_ops h (delivered requestID) w
           = [marker h requestID StatusInProgress None;
              fetch h requestID (inr o);
              OpHTTP (forward_request h (payload_of o) requestID) (inr resp);
              OpEvent ev;
              upload h requestID result None;
              marker h requestID StatusCompleted None;
              cleanup h requestID None])
  /\ store (Handle h (delivered requestID) w).2
     = delete (Bucket (config h), PayloadPath (storagePath h) requestID)
         (<[(Bucket (config h), StatusPath (storagePath h) requestID StatusCompleted)
              := mkS3Object "" None]>
            (<[(Bucket (config h), ResultPath (storagePath h) requestID)
                 := mkS3Object (json_Marshal result) None]>
               (<[(Bucket (config h), StatusPath (storagePath h) requestID StatusInProgress)
                    := mkS3Object "" None]> (store w)))).
Proof.
  intros Hne Hk Hrel Hpay Hreq Hdo (Hs & Hp & _) Hdec.
  apply distinct_keys_payload in Hk.
  unfold Handle_ops. rewrite Handle_delivered by done.
  unfold reliable, answers in *.
  unfold_handler. cbn -[String.append String.prefix].
  run_reliable Hrel.
  rewrite lookup_insert_ne by congruence. rewrite Hpay.
  cbn -[String.append String.prefix].
  change http.MethodPost with "POST". rewrite Hreq.
  cbn -[String.append String.prefix].
  change (http.mkRequest "POST" _ _ _) with (forward_request h (payload_of o) requestID).
  rewrite Hdo. cbn -[String.append String.prefix].
  rewrite Hs, Hp, Hdec. cbn -[String.append String.prefix].
  run_reliable Hrel.
  split_and!; [done | | done].
  eexists. split; [| apply ops_between_app; cbn; rewrite <- !app_assoc; reflexivity].
  done.
Qed.

(** A delivery on a bucket that serves every call, with no payload under
    the payload key. *)
Lemma missing_payload_run (h : AsyncMessageHandler) (requestID : string) (w : World) :
  requestID <> "" ->
  distinct_keys h requestID ->
  reliable (aws h) ->
  store w !! (Bucket (config h), PayloadPath (storagePath h) requestID) = None ->
  (Handle h (delivered requestID) w).1
    = Some (Wrap (WithStack NoSuchKey) "failed to get payload")
  /\ Handle_ops h (delivered requestID) w
     = [marker h requestID StatusInProgress None;
        fetch h requestID (inl NoSuchKey);
        marker h requestID StatusFailed None]
  /\ store (Handle h (delivered requestID) w).2
     = <[(Bucket (config h), StatusPath (storagePath h) requestID StatusFailed)
           := mkS3Object "" None]>
         (<[(Bucket (config h), StatusPath (storagePath h) requestID StatusInProgress)
              := mkS3Object "" None]> (store w)).
Proof.
  intros Hne Hk Hrel Hpay.
  apply distinct_keys_payload in Hk.
  unfold Handle_ops. rewrite Handle_delivered by done.
  unfold reliable in *.
  unfold_handleMessage. cbn -[String.append String.prefix].
  run_reliable Hrel.
  rewrite lookup_insert_ne by congruence. rewrite Hpay.
  cbn -[String.append String.prefix].
  run_reliable Hrel.
  split_and!; [done | | done].
  apply ops_between_app; cbn; rewrite <- !app_assoc; reflexivity.
Qed.

(** X1. On a bucket that serves every call, with the payload in place and a
    container that answers 200 with a JSON body that decodes, the delivery is
    acknowledged; its calls are, in this order, the InProgress marker, the
    fetch, the forward, the event, the upload of the decoded result, the
    Completed marker and the deletion of the payload; and the bucket ends up
    with the two markers and the result, and without the payload. *)
Theorem Handle_completes (h : AsyncMessageHandler) (requestID : string) (w : World)
    (o : S3Object) (resp : http.Response) (result : JSONValue) :
  requestID <> "" ->
  distinct_keys h requestID ->
  reliable (aws h) ->
  store w !! (Bucket (config h), PayloadPath (storagePath h) requestID) = Some o ->
  NewRequest_err "POST" (TargetURL (config h)) = None ->
  answers (client h) resp ->
  accepted resp ->
  json_Decode (http.RespBody resp) = Some result ->
  (Handle h (delivered requestID) w).1 = None
  /\ (exists ev,
        EventStatusCode ev = http.StatusCode resp
        /\ Handle_ops h (delivered requestID) w
           = [marker h requestID StatusInProgress None;
              fetch h requestID (inr o);
              OpHTTP (forward_request h (payload_of o) requestID) (inr resp);
              OpEvent ev;
              upload h requestID result None;
              marker h requestID StatusCompleted None;
              cleanup h requestID None])
  /\ store (Handle h (delivered requestID) w).2
     = delete (Bucket (config h), PayloadPath (storagePath h) requestID)
         (<[(Bucket (config h), StatusPath (storagePath h) requestID StatusCompleted)
              := mkS3Object "" None]>
            (<[(Bucket (config h), ResultPath (storagePath h) requestID)
                 := mkS3Object (json_Marshal result) None]>
               (<[(Bucket (config h), StatusPath (storagePath h) requestID StatusInProgress)
                    := mkS3Object "" None]> (store w)))).
Proof. apply completed_run. Qed.

(** X2. On a bucket that serves every call but holds nothing under the
    payload key, the delivery fails with the wrapped "no such key" error
    after writing the InProgress and the Failed marker; the user container
    is not contacted and nothing is deleted. *)
Theorem Handle_missing_payload (h : AsyncMessageHandler) (requestID : string) (w : World) :
  requestID <> "" ->
  distinct_keys h requestID ->
  reliable (aws h) ->
  store w !! (Bucket (config h), PayloadPath (storagePath h) requestID) = None ->
  (Handle h (delivered requestID) w).1
    = Some (Wrap (WithStack NoSuchKey) "failed to get payload")
  /\ Handle_ops h (delivered requestID) w
     = [marker h requestID StatusInProgress None;
        fetch h requestID (inl NoSuchKey);
        marker h requestID StatusFailed None]
  /\ forwards_of (Handle_ops h (delivered requestID) w) = []
  /\ deletions_of (Handle_ops h (delivered requestID) w) = []
  /\ store (Handle h (delivered requestID) w).2
     = <[(Bucket (config h), StatusPath (storagePath h) requestID StatusFailed)
           := mkS3Object "" None]>
         (<[(Bucket (config h), StatusPath (storagePath h) requestID StatusInProgress)
              := mkS3Object "" None]> (store w)).
Proof.
  intros Hne Hk Hrel Hpay.
  destruct (missing_payload_run h requestID w Hne Hk Hrel Hpay) as (Hret & Hops & Hst).
  rewrite Hops. by split_and!.
Qed.

(** X3. A second delivery of a request that was completed (same bucket,
    same container) does not contact the container again: the payload is
    gone, so the delivery fails at the fetch, and it leaves a Failed marker
    in the bucket beside the Completed marker and the result. *)
Theorem redelivery_after_completed (h : AsyncMessageHandler) (requestID : string)
    (w : World) (o : S3Object) (resp : http.Response) (result : JSONValue) :
  requestID <> "" ->
  distinct_keys h requestID ->
  reliable (aws h) ->
  store w !! (Bucket (config h), PayloadPath (storagePath h) requestID) = Some o ->
  NewRequest_err "POST" (TargetURL (config h)) = None ->
  answers (client h) resp ->
  accepted resp ->
  json_Decode (http.RespBody resp) = Some result ->
  let w1 := (Handle h (delivered requestID) w).2 in
  let w2 := (Handle h (delivered requestID) w1).2 in
  (Handle h (delivered requestID) w).1 = None
  /\ (Handle h (delivered requestID) w1).1
     = Some (Wrap (WithStack NoSuchKey) "failed to get payload")
  /\ forwards_of (Handle_ops h (delivered requestID) w1) = []
  /\ store w2 !! (Bucket (config h), StatusPath (storagePath h) requestID StatusCompleted)
     = Some (mkS3Object "" None)
  /\ store w2 !! (Bucket (config h), StatusPath (storagePath h) requestID StatusFailed)
     = Some (mkS3Object "" None)
  /\ store w2 !! (Bucket (config h), ResultPath (storagePath h) requestID)
     = Some (mkS3Object (json_Marshal result) None).
Proof.
  intros Hne Hk Hrel Hpay Hreq Hdo Hacc Hdec w1 w2.
  destruct (completed_run h requestID w o resp result Hne Hk Hrel Hpay Hreq Hdo Hacc Hdec)
    as (Hret & _ & Hst1).
  assert (store w1 !! (Bucket (config h), PayloadPath (storagePath h) requestID) = None)
    as Hgone by (subst w1; rewrite Hst1; apply lookup_delete_eq).
  destruct (missing_payload_run h requestID w1 Hne Hk Hrel Hgone) as (Hret2 & Hops2 & Hst2).
  pose proof Hk as Hpk.
  apply distinct_keys_ne in Hk as (Hc & Hf & Hfc & Hrc & Hrf). cbn zeta in *.
  assert (PayloadPath (storagePath h) requestID
          <> StatusPath (storagePath h) requestID StatusCompleted
          /\ PayloadPath (storagePath h) requestID
             <> ResultPath (storagePath h) requestID
          /\ ResultPath (storagePath h) requestID
             <> StatusPath (storagePath h) requestID StatusInProgress) as (Hpc & Hpr & Hri).
  { unfold distinct_keys in Hpk. rewrite !NoDup_cons, !not_elem_of_cons in Hpk.
    destruct Hpk as ((_ & _ & _ & Hir & _) & (_ & Hcp & _) & _ & (Hpr & _) & _).
    split_and!; congruence. }
  split_and!; [done | done | by rewrite Hops2 | ..]; subst w2 w1; rewrite Hst2, Hst1.
  - rewrite lookup_insert_ne by congruence. rewrite lookup_insert_ne by congruence.
    rewrite lookup_delete_ne by congruence. by rewrite lookup_insert_eq.
  - by rewrite lookup_insert_eq.
  - rewrite lookup_insert_ne by congruence. rewrite lookup_insert_ne by congruence.
    rewrite lookup_delete_ne by congruence.
    rewrite lookup_insert_ne by congruence. by rewrite lookup_insert_eq.
Qed.

(** When the forward succeeded, the decoded body is what gets uploaded. *)
Lemma submitted_ok_inv h payload requestID w result fwd :
  submitted h payload requestID w (inr result) fwd ->
  exists resp ev,
    accepted resp
    /\ json_Decode (http.RespBody resp) = Some result
    /\ fwd = [OpHTTP (forward_request h payload requestID) (inr resp); OpEvent ev].
Proof. inversion 1; subst; eauto 6. Qed.

(** X4. A delivery changes nothing in the bucket outside the five keys of
    its own request: every object of another bucket, and every object of the
    handler's bucket under another key, is after the delivery what it was
    before. *)
Theorem Handle_frame (h : AsyncMessageHandler) (requestID : string) (w : World)
    (bucket key : string) :
  requestID <> "" ->
  (bucket = Bucket (config h) -> key ∉ artifact_keys h requestID) ->
  store (Handle h (delivered requestID) w).2 !! (bucket, key) = store w !! (bucket, key).
Proof.
  intros Hne Hkey. run_handle h requestID w Hne.
  assert (forall k, k ∈ artifact_keys h requestID -> (Bucket (config h), k) <> (bucket, key))
    as Hother by (intros k Hk [= <- <-]; by apply Hkey).
  unfold artifact_keys in Hother.
  assert (forall s, (Bucket (config h), StatusPath (storagePath h) requestID s)
                    <> (bucket, key)) as Hm
    by (intros []; apply Hother; set_solver).
  assert ((Bucket (config h), PayloadPath (storagePath h) requestID) <> (bucket, key))
    as Hp by (apply Hother; set_solver).
  assert ((Bucket (config h), ResultPath (storagePath h) requestID) <> (bucket, key))
    as Hr by (apply Hother; set_solver).
  rewrite Hst. clear Hst Hother Hkey.
  destruct Hh as [| | ? ? ? ? werr derr Hsub | ? ? ? ? ? werr derr Hsub
                 | ? ? ? ? ? derr Hsub | ? ? ? ? derr Hsub];
    try forward_cases Hsub;
    try destruct werr; try destruct derr; cbn;
    rewrite ?lookup_delete_ne by done; rewrite ?lookup_insert_ne by done;
    rewrite ?lookup_delete_ne by done; rewrite ?lookup_insert_ne by done;
    reflexivity.
Qed.

(** X5. The user container is contacted at most once per delivery, and only
    after the InProgress marker was written and the payload was fetched; the
    one request is a POST to the target URL whose body is the payload's
    bytes and whose [X-Cortex-Request-ID] header is the request id. *)
Theorem Handle_forwards_once (h : AsyncMessageHandler) (requestID : string) (w : World) :
  requestID <> "" ->
  forwards_of (Handle_ops h (delivered requestID) w) = []
  \/ exists o req,
       Handle_ops h (delivered requestID) w !! 0%nat
         = Some (marker h requestID StatusInProgress None)
       /\ Handle_ops h (delivered requestID) w !! 1%nat = Some (fetch h requestID (inr o))
       /\ forwards_of (Handle_ops h (delivered requestID) w) = [req]
       /\ http.Method req = "POST"
       /\ http.URL req = TargetURL (config h)
       /\ http.ReqBody req = Body o
       /\ http.Header_Get (http.ReqHeader req) CortexRequestIDHeader = requestID.
Proof.
  intros Hne. run_handle h requestID w Hne.
  assert (forall p,
             http.Header_Get (http.ReqHeader (forward_request h p requestID))
               CortexRequestIDHeader = requestID) as Hid.
  { intros p. unfold http.Header_Get, forward_request. cbn [http.ReqHeader].
    rewrite canonical_request_id. by rewrite lookup_insert_eq. }
  destruct Hh as [| | o ? ? ? ? ? Hsub | o ? ? ? ? ? ? Hsub
                 | o ? ? ? ? ? Hsub | o ? ? ? ? Hsub];
    try forward_cases Hsub; try (by left);
    right; exists o, (forward_request h (payload_of o) requestID);
    split_and!; try reflexivity; apply Hid.
Qed.

(** X6. Whatever is put under the result key is the JSON encoding of what
    the body of an accepted response decoded to: nothing is stored there
    unless the forward succeeded. *)
Theorem uploaded_result_is_response (h : AsyncMessageHandler) (requestID : string)
    (w : World) (body : string) (err : option error) :
  requestID <> "" ->
  distinct_keys h requestID ->
  OpPut (Bucket (config h)) (ResultPath (storagePath h) requestID) body err
    ∈ Handle_ops h (delivered requestID) w ->
  exists req resp result,
    OpHTTP req (inr resp) ∈ Handle_ops h (delivered requestID) w
    /\ accepted resp
    /\ json_Decode (http.RespBody resp) = Some result
    /\ body = json_Marshal result.
Proof.
  intros Hne Hk Hin. run_handle h requestID w Hne.
  assert (forall s, ResultPath (storagePath h) requestID
                    <> StatusPath (storagePath h) requestID s) as Hm.
  { unfold distinct_keys in Hk. rewrite !NoDup_cons, !not_elem_of_cons in Hk.
    destruct Hk as ((_ & _ & _ & Hir & _) & (_ & _ & Hcr & _) & (_ & Hfr & _) & _).
    intros []; congruence. }
  pose proof (Hm StatusInProgress) as Hi.
  pose proof (Hm StatusCompleted) as Hc.
  pose proof (Hm StatusFailed) as Hf.
  destruct Hh as [| | ? ? ? ? ? ? Hsub | ? ? ? ? ? ? ? Hsub
                 | ? ? ? ? ? ? Hsub | ? ? ? ? ? Hsub];
    [ | | forward_cases Hsub
    | apply submitted_ok_inv in Hsub as (resp & ev & Hacc & Hdec & ->) ..];
    unfold marker, upload, fetch, cleanup in *; cbn [app] in *;
    set_unfold in Hin; destruct_or!; try done; simplify_eq;
    (do 3 eexists; split_and!; [| eassumption | eassumption | reflexivity];
     do 2 apply list_elem_of_further; apply list_elem_of_here).
Qed.

(** X7. A delivery is acknowledged only with a terminal marker on record:
    when [Handle] returns nil, the write of the Completed or of the Failed
    marker succeeded during the delivery, and that marker is in the bucket
    when [Handle] returns. *)
Theorem acknowledged_is_terminal (h : AsyncMessageHandler) (requestID : string)
    (w : World) :
  requestID <> "" ->
  distinct_keys h requestID ->
  (Handle h (delivered requestID) w).1 = None ->
  exists s,
    is_terminal s = true
    /\ marker h requestID s None ∈ Handle_ops h (delivered requestID) w
    /\ store (Handle h (delivered requestID) w).2
         !! (Bucket (config h), StatusPath (storagePath h) requestID s)
       = Some (mkS3Object "" None).
Proof.
  intros Hne Hk Hret. run_handle h requestID w Hne.
  assert (forall s, is_terminal s = true ->
            (Bucket (config h), PayloadPath (storagePath h) requestID)
            <> (Bucket (config h), StatusPath (storagePath h) requestID s)) as Hp.
  { unfold distinct_keys in Hk. rewrite !NoDup_cons, !not_elem_of_cons in Hk.
    destruct Hk as (_ & (_ & Hcp & _) & (Hfp & _) & _).
    intros [] ?; [done | congruence | congruence]. }
  rewrite Hst. clear Hst.
  destruct Hh as [| | ? ? ? ? werr derr Hsub | ? ? ? ? ? werr derr Hsub
                 | ? ? ? ? ? derr Hsub | ? ? ? ? derr Hsub]; try done.
  - destruct werr; [done |]. exists StatusFailed.
    forward_cases Hsub; (split_and!; [done | set_solver |]);
      destruct derr; cbn; rewrite ?lookup_delete_ne by (by apply Hp);
      apply lookup_insert_eq.
  - exists StatusCompleted.
    forward_cases Hsub; (split_and!; [done | set_solver |]);
      destruct derr; cbn; rewrite ?lookup_delete_ne by (by apply Hp);
      apply lookup_insert_eq.
Qed.

Lemma submitRequest_telemetry (h : AsyncMessageHandler) (payload : userPayload)
    (requestID : string) (w : World) :
  telemetry (submitRequest h payload requestID w).2 = telemetry w.
Proof.
  unfold_handler. cbn -[String.append String.prefix].
  case_call; [done |]. case_call; [done |].
  destruct (negb _); [done |]. destruct (negb _); [done |].
  by destruct (json_Decode _).
Qed.

Lemma submitted_telemetry h payload requestID w res ops :
  submitted h payload requestID w res ops -> telemetry_of ops = [].
Proof. by destruct 1. Qed.

Lemma handleMessage_telemetry (h : AsyncMessageHandler) (requestID : string) (w : World) :
  exists ops,
    trace (handleMessage h requestID w).2 = trace w ++ ops
    /\ telemetry (handleMessage h requestID w).2 = telemetry w ++ telemetry_of ops.
Proof.
  unfold_handleMessage. cbn -[String.append String.prefix].
  case_call.
  { eexists. split; [reflexivity | by rewrite app_nil_r]. }
  case_call.
  { case_call; (eexists; split; [by rewrite <- !app_assoc | by rewrite app_nil_r]). }
  case_call.
  2:{ case_call; (eexists; split; [by rewrite <- !app_assoc | by rewrite app_nil_r]). }
  match goal with
  | |- context [submitRequest h ?p requestID ?w1] =>
      destruct (submitRequest_submitted h p requestID w1) as (fwd & Htr & _ & _ & Hsub);
      pose proof (submitRequest_telemetry h p requestID w1) as Htl;
      destruct (submitRequest h p requestID w1) as [res w2]
  end.
  cbn -[String.append String.prefix] in Htr, Htl, Hsub.
  apply submitted_telemetry in Hsub.
  assert (forall l, telemetry_of (fwd ++ l) = telemetry_of l) as Hfwd
    by (intros l; unfold telemetry_of in *; by rewrite omap_app, Hsub).
  destruct res as [err | result]; cbn -[String.append String.prefix].
  { do 2 case_call;
      (eexists; split;
       [ rewrite Htr, <- !app_assoc; reflexivity
       | cbn; rewrite Htl, Hfwd; cbn; by rewrite ?app_nil_r ]). }
  case_call.
  { do 2 case_call;
      (eexists; split;
       [ rewrite Htr, <- !app_assoc; reflexivity
       | cbn; rewrite Htl, Hfwd; cbn; by rewrite ?app_nil_r ]). }
  do 2 case_call;
    (eexists; split;
     [ rewrite Htr, <- !app_assoc; reflexivity
     | cbn; rewrite Htl, Hfwd; cbn; by rewrite ?app_nil_r ]).
Qed.

(** X8. Telemetry is told of a delivery exactly the deletions of the
    payload that failed, each wrapped as "failed to delete user payload";
    the errors [Handle] returns do not reach it. *)
Theorem Handle_telemetry (h : AsyncMessageHandler) (requestID : string) (w : World) :
  requestID <> "" ->
  telemetry (Handle h (delivered requestID) w).2
  = telemetry w ++ telemetry_of (Handle_ops h (delivered requestID) w).
Proof.
  intros Hne. unfold Handle_ops. rewrite Handle_delivered by done.
  destruct (handleMessage_telemetry h requestID w) as (ops & Htr & Htl).
  by rewrite (ops_between_app _ _ _ Htr).
Qed.

Lemma Handle_telemetry_of (h : AsyncMessageHandler) (requestID : string) (w : World) :
  requestID <> "" ->
  telemetry (Handle h (delivered requestID) w).2
  = telemetry w ++ telemetry_of (Handle_ops h (delivered requestID) w).
Proof.
  intros Hne. unfold Handle_ops. rewrite Handle_delivered by done.
  destruct (handleMessage_telemetry h requestID w) as (ops & Htr & Htl).
  by rewrite (ops_between_app _ _ _ Htr).
Qed.

(** C5, as the handler has it. When the Completed marker is written, the
    result was uploaded before, and the bucket holds it under the result key
    at that moment; [Handle] returns nil; the deletion of the payload is the
    next and only deletion, and if it succeeds the payload is gone
    afterwards; if it fails, the failure adds one line to the log and one
    error to telemetry, and changes nothing else: [Handle] still returns
    nil. *)
Theorem completed_has_result (h : AsyncMessageHandler) (requestID : string) (w : World)
    (i : nat) :
  requestID <> "" ->
  distinct_keys h requestID ->
  Handle_ops h (delivered requestID) w !! i
    = Some (marker h requestID StatusCompleted None) ->
  (exists (j : nat) (result : JSONValue),
     (j < i)%nat
     /\ Handle_ops h (delivered requestID) w !! j = Some (upload h requestID result None)
     /\ replay (take i (Handle_ops h (delivered requestID) w)) (store w)
          !! (Bucket (config h), ResultPath (storagePath h) requestID)
        = Some (mkS3Object (json_Marshal result) None))
  /\ (Handle h (delivered requestID) w).1 = None
  /\ exists derr,
       Handle_ops h (delivered requestID) w !! S i = Some (cleanup h requestID derr)
       /\ deletions_of (Handle_ops h (delivered requestID) w)
          = [(Bucket (config h), PayloadPath (storagePath h) requestID)]
       /\ (derr = None ->
           store (Handle h (delivered requestID) w).2
             !! (Bucket (config h), PayloadPath (storagePath h) requestID) = None)
       /\ logs (Handle h (delivered requestID) w).2
          = logs w ++ log_processing requestID :: log_complete requestID
                   :: log_delete_failed derr
       /\ telemetry (Handle h (delivered requestID) w).2
          = telemetry w ++ match derr with
                           | Some e => [Wrap e "failed to delete user payload"]
                           | None => []
                           end.
Proof.
  intros Hne Hk Hi.
  destruct (Handle_handled h requestID w Hne) as (lgs & _ & Hst & Hlg & Hh).
  pose proof (Handle_telemetry_of h requestID w Hne) as Htl.
  apply distinct_keys_ne in Hk as (Hc & Hf & Hfc & Hrc & Hrf). cbn zeta in *.
  set (ops := Handle_ops h (delivered requestID) w) in *.
  set (r := Handle h (delivered requestID) w) in *.
  clearbody ops r. destruct r as [ret w']. cbn [fst snd] in *.
  destruct Hh as [| | ? ? ? ? ? ? Hsub | ? ? ? ? ? ? ? Hsub
                 | ? ? ? ? ? ? Hsub | ? ? ? ? derr Hsub];
    try forward_cases Hsub; unfold marker, upload, fetch, cleanup in Hi;
    cbn [app] in Hi;
    at_index Hi; try discriminate Hi; try congruence.
  split_and!.
  - exists 4%nat, result. split_and!; [lia | done |].
    cbn. apply lookup_insert_eq.
  - done.
  - exists derr. split_and!; [done | done | | done |].
    + intros ->. rewrite Hst. cbn. apply lookup_delete_eq.
    + rewrite Htl. by destruct derr.
Qed.

End Handler.

(** ** Scaling a node group *)

Section ScaleFacts.

Variable MinInstancesKey : string.
Variable MaxInstancesKey : string.
Variable YesOrNo : string -> bool.

Local Abbreviation updateNodeGroupScale :=
  (cluster.updateNodeGroupScale MinInstancesKey MaxInstancesKey YesOrNo).
Local Abbreviation scan := (cluster.scan MinInstancesKey MaxInstancesKey YesOrNo).
Local Abbreviation scale := (cluster.scale MinInstancesKey MaxInstancesKey YesOrNo).

Lemma names_app (l1 l2 : list (option cluster.NodeGroup)) :
  cluster.names (l1 ++ l2) = cluster.names l1 ++ cluster.names l2.
Proof. apply omap_app. Qed.

Lemma names_lookup (l : list (option cluster.NodeGroup)) (j : nat)
    (ng : cluster.NodeGroup) :
  l !! j = Some (Some ng) -> cluster.Name ng ∈ cluster.names l.
Proof.
  intros Hj. unfold cluster.names. apply list_elem_of_omap.
  exists (Some ng). split; [by eapply list_elem_of_lookup_2 | done].
Qed.

(** The loop either finds no node group of the name and reports all the
    names it saw, or runs the body on the first one of that name. *)
Lemma scan_first (clusterConfig : cluster.Config) (targetNg : string)
    (dmin dmax : option Z) (disallowPrompt : bool)
    (rest pre : list (option cluster.NodeGroup)) :
  cluster.NodeGroups clusterConfig = pre ++ rest ->
  targetNg ∉ cluster.names pre ->
  ((targetNg ∉ cluster.names (cluster.NodeGroups clusterConfig))
   /\ scan clusterConfig targetNg dmin dmax disallowPrompt (length pre) rest
        (cluster.names pre)
      = cluster.Return cluster.zero 0
          (Some (cluster.ErrorNodeGroupNotFound targetNg
                   (cluster.ClusterName clusterConfig) (cluster.Region clusterConfig)
                   (cluster.names (cluster.NodeGroups clusterConfig)))))
  \/ exists idx ng,
       cluster.NodeGroups clusterConfig !! idx = Some (Some ng)
       /\ cluster.Name ng = targetNg
       /\ (targetNg ∉ cluster.names (take idx (cluster.NodeGroups clusterConfig)))
       /\ scan clusterConfig targetNg dmin dmax disallowPrompt (length pre) rest
            (cluster.names pre)
          = scale clusterConfig dmin dmax disallowPrompt idx ng.
Proof.
  revert pre. induction rest as [| [ng |] rest IH]; intros pre Hcfg Hpre.
  - left. rewrite app_nil_r in Hcfg. rewrite Hcfg. by split.
  - cbn [cluster.scan]. destruct (decide (cluster.Name ng = targetNg)) as [Heq | Hne].
    + right. exists (length pre), ng. rewrite Hcfg. split_and!.
      * by rewrite list_lookup_middle.
      * done.
      * by rewrite take_app_length.
      * done.
    + specialize (IH (pre ++ [Some ng])).
      rewrite length_app, names_app in IH. cbn in IH.
      replace (length pre + 1)%nat with (S (length pre)) in IH by lia.
      apply IH.
      * by rewrite <- app_assoc.
      * rewrite not_elem_of_app. split; [done |].
        intros ?%list_elem_of_singleton. congruence.
  - cbn [cluster.scan]. specialize (IH (pre ++ [None])).
    rewrite length_app, names_app in IH. cbn in IH. rewrite app_nil_r in IH.
    replace (length pre + 1)%nat with (S (length pre)) in IH by lia.
    apply IH; [by rewrite <- app_assoc | done].
Qed.

Lemma updateNodeGroupScale_first (clusterConfig : cluster.Config) (targetNg : string)
    (dmin dmax : option Z) (disallowPrompt : bool) :
  ((targetNg ∉ cluster.names (cluster.NodeGroups clusterConfig))
   /\ updateNodeGroupScale clusterConfig targetNg dmin dmax disallowPrompt
      = cluster.Return cluster.zero 0
          (Some (cluster.ErrorNodeGroupNotFound targetNg
                   (cluster.ClusterName clusterConfig) (cluster.Region clusterConfig)
                   (cluster.names (cluster.NodeGroups clusterConfig)))))
  \/ exists idx ng,
       cluster.NodeGroups clusterConfig !! idx = Some (Some ng)
       /\ cluster.Name ng = targetNg
       /\ (targetNg ∉ cluster.names (take idx (cluster.NodeGroups clusterConfig)))
       /\ updateNodeGroupScale clusterConfig targetNg dmin dmax disallowPrompt
          = scale clusterConfig dmin dmax disallowPrompt idx ng.
Proof.
  apply (scan_first clusterConfig targetNg dmin dmax disallowPrompt _ []);
    [done | apply not_elem_of_nil].
Qed.

(** What the body returns when it returns without error. *)
Lemma scale_returns (clusterConfig clusterConfig' : cluster.Config)
    (dmin dmax : option Z) (disallowPrompt : bool) (idx idx' : nat)
    (ng : cluster.NodeGroup) :
  scale clusterConfig dmin dmax disallowPrompt idx ng
    = cluster.Return clusterConfig' idx' None ->
  let minReplicas := default (cluster.MinInstances ng) dmin in
  let maxReplicas := default (cluster.MaxInstances ng) dmax in
  idx' = idx
  /\ 0 <= minReplicas <= maxReplicas
  /\ (minReplicas <> cluster.MinInstances ng \/ maxReplicas <> cluster.MaxInstances ng)
  /\ (disallowPrompt = false ->
      YesOrNo (cluster.promptMessage MinInstancesKey MaxInstancesKey
                 (cluster.ClusterName clusterConfig) (cluster.Region clusterConfig)
                 ng minReplicas maxReplicas) = true)
  /\ clusterConfig'
     = {| cluster.ClusterName := cluster.ClusterName clusterConfig;
          cluster.Region := cluster.Region clusterConfig;
          cluster.NodeGroups :=
            <[idx := Some {| cluster.Name := cluster.Name ng;
                             cluster.MinInstances := minReplicas;
                             cluster.MaxInstances := maxReplicas |}]>
              (cluster.NodeGroups clusterConfig) |}.
Proof.
  unfold cluster.scale.
  change (match dmin with Some n => n | None => cluster.MinInstances ng end)
    with (default (cluster.MinInstances ng) dmin).
  change (match dmax with Some n => n | None => cluster.MaxInstances ng end)
    with (default (cluster.MaxInstances ng) dmax).
  cbn zeta.
  set (mn := default (cluster.MinInstances ng) dmin).
  set (mx := default (cluster.MaxInstances ng) dmax).
  destruct (mn <? 0) eqn:E1; [done |].
  destruct (mx <? 0) eqn:E2; [done |].
  destruct (mn >? mx) eqn:E3; [done |].
  destruct ((cluster.MinInstances ng =? mn) && (cluster.MaxInstances ng =? mx)) eqn:E4;
    [done |].
  destruct (negb disallowPrompt && negb (YesOrNo _)) eqn:E5; [done |].
  intros [= <- <-].
  apply Z.ltb_ge in E1. apply Z.ltb_ge in E2.
  rewrite Z.gtb_ltb in E3. apply Z.ltb_ge in E3.
  apply andb_false_iff in E4. rewrite !Z.eqb_neq in E4.
  apply andb_false_iff in E5. rewrite !negb_false_iff in E5.
  split; [done |]. split; [lia |]. split.
  { destruct E4 as [E4 | E4]; [left | right]; congruence. }
  split; [| done].
  intros ->. by destruct E5.
Qed.

(** X9. When [updateNodeGroupScale] returns without error, the index it
    returns is that of a node group of the requested name; in the returned
    configuration that node group has the requested bounds (a bound that was
    not requested keeps its value), with [0 <= min <= max], and every other
    node group, the cluster name and the region are as they were. *)
Theorem updateNodeGroupScale_updates (clusterConfig clusterConfig' : cluster.Config)
    (targetNg : string) (dmin dmax : option Z) (disallowPrompt : bool) (idx : nat) :
  updateNodeGroupScale clusterConfig targetNg dmin dmax disallowPrompt
    = cluster.Return clusterConfig' idx None ->
  exists ng,
    cluster.NodeGroups clusterConfig !! idx = Some (Some ng)
    /\ cluster.Name ng = targetNg
    /\ cluster.NodeGroups clusterConfig' !! idx
       = Some (Some {| cluster.Name := targetNg;
                       cluster.MinInstances := default (cluster.MinInstances ng) dmin;
                       cluster.MaxInstances := default (cluster.MaxInstances ng) dmax |})
    /\ 0 <= default (cluster.MinInstances ng) dmin <= default (cluster.MaxInstances ng) dmax
    /\ (forall j, j <> idx ->
          cluster.NodeGroups clusterConfig' !! j = cluster.NodeGroups clusterConfig !! j)
    /\ length (cluster.NodeGroups clusterConfig') = length (cluster.NodeGroups clusterConfig)
    /\ cluster.ClusterName clusterConfig' = cluster.ClusterName clusterConfig
    /\ cluster.Region clusterConfig' = cluster.Region clusterConfig.
Proof.
  intros Hret.
  destruct (updateNodeGroupScale_first clusterConfig targetNg dmin dmax disallowPrompt)
    as [[_ Hnf] | (i & ng & Hi & Hname & _ & Hscale)]; [congruence |].
  rewrite Hscale in Hret.
  apply scale_returns in Hret as (-> & Hbounds & _ & _ & ->). cbn.
  exists ng. repeat apply conj; try done; try apply Hbounds.
  - rewrite list_lookup_insert_eq by (by eapply lookup_lt_Some). by rewrite Hname.
  - intros j Hj. by rewrite list_lookup_insert_ne.
  - apply length_insert.
Qed.

(** X10. The node group that is updated is the first of the requested name:
    no node group before the returned index has that name. *)
Theorem updateNodeGroupScale_first_match (clusterConfig clusterConfig' : cluster.Config)
    (targetNg : string) (dmin dmax : option Z) (disallowPrompt : bool) (idx j : nat)
    (ng : cluster.NodeGroup) :
  updateNodeGroupScale clusterConfig targetNg dmin dmax disallowPrompt
    = cluster.Return clusterConfig' idx None ->
  (j < idx)%nat ->
  cluster.NodeGroups clusterConfig !! j = Some (Some ng) ->
  cluster.Name ng <> targetNg.
Proof.
  intros Hret Hlt Hj.
  destruct (updateNodeGroupScale_first clusterConfig targetNg dmin dmax disallowPrompt)
    as [[_ Hnf] | (i & ng' & Hi & Hname & Hfirst & Hscale)]; [congruence |].
  rewrite Hscale in Hret.
  apply scale_returns in Hret as (-> & _).
  intros Heq. apply Hfirst. rewrite <- Heq.
  apply (names_lookup _ j). by rewrite lookup_take_lt.
Qed.

Lemma scale_not_missing (clusterConfig clusterConfig' : cluster.Config)
    (dmin dmax : option Z) (disallowPrompt : bool) (idx idx' : nat)
    (ng : cluster.NodeGroup) (t c r : string) (av : list string) :
  scale clusterConfig dmin dmax disallowPrompt idx ng
  <> cluster.Return clusterConfig' idx' (Some (cluster.ErrorNodeGroupNotFound t c r av)).
Proof.
  unfold cluster.scale. cbn zeta.
  repeat match goal with |- context [if ?b then _ else _] => destruct b end; done.
Qed.

(** X11. [updateNodeGroupScale] reports that the node group was not found
    exactly when no node group that is not nil has the requested name; the
    error then lists the names of all the node groups that are not nil, in
    order, and the returned configuration is empty. *)
Theorem updateNodeGroupScale_not_found (clusterConfig : cluster.Config)
    (targetNg : string) (dmin dmax : option Z) (disallowPrompt : bool) :
  targetNg ∉ cluster.names (cluster.NodeGroups clusterConfig)
  <-> updateNodeGroupScale clusterConfig targetNg dmin dmax disallowPrompt
      = cluster.Return cluster.zero 0
          (Some (cluster.ErrorNodeGroupNotFound targetNg
                   (cluster.ClusterName clusterConfig) (cluster.Region clusterConfig)
                   (cluster.names (cluster.NodeGroups clusterConfig)))).
Proof.
  destruct (updateNodeGroupScale_first clusterConfig targetNg dmin dmax disallowPrompt)
    as [[Hnf Hret] | (i & ng & Hi & Hname & _ & Hscale)].
  - by split.
  - split.
    + intros Hnf. destruct Hnf. rewrite <- Hname. by eapply names_lookup.
    + rewrite Hscale. intros Hret. by apply scale_not_missing in Hret.
Qed.

(** X12. With prompts allowed, nothing is updated against the user's
    answer: if the function returns a configuration without error, the user
    said yes to the prompt that names the node group and its change; and a
    request for the bounds the node group already has never returns. *)
Theorem updateNodeGroupScale_consent (clusterConfig clusterConfig' : cluster.Config)
    (targetNg : string) (dmin dmax : option Z) (idx : nat) :
  updateNodeGroupScale clusterConfig targetNg dmin dmax false
    = cluster.Return clusterConfig' idx None ->
  exists ng,
    cluster.NodeGroups clusterConfig !! idx = Some (Some ng)
    /\ (default (cluster.MinInstances ng) dmin <> cluster.MinInstances ng
        \/ default (cluster.MaxInstances ng) dmax <> cluster.MaxInstances ng)
    /\ YesOrNo (cluster.promptMessage MinInstancesKey MaxInstancesKey
                  (cluster.ClusterName clusterConfig) (cluster.Region clusterConfig) ng
                  (default (cluster.MinInstances ng) dmin)
                  (default (cluster.MaxInstances ng) dmax)) = true.
Proof.
  intros Hret.
  destruct (updateNodeGroupScale_first clusterConfig targetNg dmin dmax false)
    as [[_ Hnf] | (i & ng & Hi & Hname & _ & Hscale)]; [congruence |].
  rewrite Hscale in Hret.
  apply scale_returns in Hret as (-> & _ & Hchg & Hyes & _).
  exists ng. split_and!; [done | done | by apply Hyes].
Qed.

End ScaleFacts.

(** ** Bucket lifecycle rules *)

Section LifecycleFacts.

Context {Time : Type}.
Variable yesterday : Time.
Variable EnsureSuffix : string -> string -> string.
Variable Join : string -> string -> string.

Local Abbreviation setLifecycleRulesOnClusterUp :=
  (lifecycle.setLifecycleRulesOnClusterUp yesterday EnsureSuffix Join).
Local Abbreviation cluster_rule := (lifecycle.cluster_rule yesterday EnsureSuffix).
Local Abbreviation workloads_rule := (@lifecycle.workloads_rule Time EnsureSuffix Join).

Ltac in_cases H :=
  repeat (apply elem_of_cons in H as [H | H]; [try discriminate H |]);
  try (by apply elem_of_nil in H).

Lemma cluster_rules_map (clusterUIDs : list string) (acc : list (lifecycle.LifecycleRule Time)) :
  foldl (fun rules clusterUID => rules ++ [cluster_rule clusterUID]) acc clusterUIDs
  = acc ++ map cluster_rule clusterUIDs.
Proof.
  revert acc. induction clusterUIDs as [| uid uids IH]; intros acc; cbn.
  - by rewrite app_nil_r.
  - by rewrite IH, <- app_assoc.
Qed.

(** X13. Whenever [setLifecycleRulesOnClusterUp] sets the rules of the
    bucket, it has deleted the old ones and listed the top-level directories
    first; the rules are one [cluster-remove-] rule per directory, in order,
    followed by the expiry rule for the async workloads of the new cluster
    ([consts.AsyncWorkloadsExpirationDays] days); and they are at most
    [consts.MaxBucketLifecycleRules]. *)
Theorem cluster_up_rules (awsClient : lifecycle.Client Time) (bucket newClusterUID : string)
    (b : string) (rules : list (lifecycle.LifecycleRule Time)) :
  lifecycle.SetLifecycleRules b rules
    ∈ (setLifecycleRulesOnClusterUp awsClient bucket newClusterUID).2 ->
  exists clusterUIDs,
    lifecycle.list_dirs awsClient bucket = inr clusterUIDs
    /\ (setLifecycleRulesOnClusterUp awsClient bucket newClusterUID).2
       = [lifecycle.DeleteLifecycleRules bucket; lifecycle.ListS3TopLevelDirs bucket;
          lifecycle.SetLifecycleRules bucket rules]
    /\ (setLifecycleRulesOnClusterUp awsClient bucket newClusterUID).1
       = lifecycle.set_rules awsClient bucket rules
    /\ rules = map cluster_rule clusterUIDs ++ [workloads_rule newClusterUID]
    /\ (length rules <= consts.MaxBucketLifecycleRules)%nat.
Proof.
  unfold lifecycle.setLifecycleRulesOnClusterUp.
  destruct (lifecycle.delete_rules awsClient bucket) as [e |]; cbn [fst snd].
  { intros Hin. in_cases Hin. }
  destruct (lifecycle.list_dirs awsClient bucket) as [e | uids]; cbn [fst snd].
  { intros Hin. in_cases Hin. }
  destruct (Nat.ltb_spec consts.MaxBucketLifecycleRules (length uids + 1)) as [Hlt | Hle];
    cbn [fst snd].
  { intros Hin. in_cases Hin. }
  rewrite cluster_rules_map. cbn [app].
  intros Hin. in_cases Hin.
  injection Hin as -> ->.
  exists uids. split_and!; [done | done | done | done |].
  rewrite length_app, length_map. cbn [length]. lia.
Qed.

(** X14. When the bucket already has so many top-level directories that one
    more rule would exceed [consts.MaxBucketLifecycleRules],
    [setLifecycleRulesOnClusterUp] fails with
    [ErrorClusterUIDsLimitInBucket] without setting any rule, after it has
    deleted the rules the bucket had. *)
Theorem cluster_up_limit (awsClient : lifecycle.Client Time) (bucket newClusterUID : string)
    (clusterUIDs : list string) :
  lifecycle.delete_rules awsClient bucket = None ->
  lifecycle.list_dirs awsClient bucket = inr clusterUIDs ->
  (consts.MaxBucketLifecycleRules <= length clusterUIDs)%nat ->
  setLifecycleRulesOnClusterUp awsClient bucket newClusterUID
  = (Some (lifecycle.ErrorClusterUIDsLimitInBucket bucket),
     [lifecycle.DeleteLifecycleRules bucket; lifecycle.ListS3TopLevelDirs bucket]).
Proof.
  intros Hdel Hlist Hlen. unfold lifecycle.setLifecycleRulesOnClusterUp.
  rewrite Hdel, Hlist.
  destruct (Nat.ltb_spec consts.MaxBucketLifecycleRules (length clusterUIDs + 1));
    [done | lia].
Qed.

End LifecycleFacts.

(** ** The properties on the concrete deployment *)

Abbreviation demo_Handle :=
  (Handle Demo.json_Decode Demo.json_Marshal Demo.StatusPath Demo.PayloadPath
     Demo.ResultPath Demo.Status_String Demo.NewRequest_err).

Abbreviation demo_ops :=
  (Handle_ops Demo.json_Decode Demo.json_Marshal Demo.StatusPath Demo.PayloadPath
     Demo.ResultPath Demo.Status_String Demo.NewRequest_err).

Abbreviation demo_marker := (marker Demo.StatusPath).

(** Scenario D: the container answers 500; the delivery is acknowledged and
    the Failed marker is in the bucket. *)
Example container_500_acknowledged :
  (demo_Handle (Demo.handler Demo.bucket_up Demo.container_500) (delivered "req-4")
     (Demo.bucket_with_payload "req-4")).1 = None
  /\ store (demo_Handle (Demo.handler Demo.bucket_up Demo.container_500)
              (delivered "req-4") (Demo.bucket_with_payload "req-4")).2
       !! ("bucket", "cluster/api/req-4/status/failed")
     = Some {| Body := ""; ContentType := None |}.
Proof. split; vm_compute; reflexivity. Qed.

(** Scenario E: the container answers 200 with [text/plain]; the delivery
    is acknowledged, the Failed marker is in the bucket and no event is
    sent. *)
Example container_text_acknowledged :
  (demo_Handle (Demo.handler Demo.bucket_up Demo.container_text) (delivered "req-5")
     (Demo.bucket_with_payload "req-5")).1 = None
  /\ store (demo_Handle (Demo.handler Demo.bucket_up Demo.container_text)
              (delivered "req-5") (Demo.bucket_with_payload "req-5")).2
       !! ("bucket", "cluster/api/req-5/status/failed")
     = Some {| Body := ""; ContentType := None |}
  /\ events_of (demo_ops (Demo.handler Demo.bucket_up Demo.container_text)
                  (delivered "req-5") (Demo.bucket_with_payload "req-5")) = [].
Proof. split_and!; vm_compute; reflexivity. Qed.

(** Scenario A: the markers, the result and the event of a delivery that
    goes well; the payload is gone. *)
Example happy_path :
  (demo_Handle (Demo.handler Demo.bucket_up Demo.container_ok) (delivered "req-1")
     (Demo.bucket_with_payload "req-1")).1 = None
  /\ store (demo_Handle (Demo.handler Demo.bucket_up Demo.container_ok)
              (delivered "req-1") (Demo.bucket_with_payload "req-1")).2
     = {[ ("bucket", "cluster/api/req-1/status/in_progress")
            := {| Body := ""; ContentType := None |};
          ("bucket", "cluster/api/req-1/result")
            := {| Body := "{}"; ContentType := None |};
          ("bucket", "cluster/api/req-1/status/completed")
            := {| Body := ""; ContentType := None |} ]}
  /\ events_of (demo_ops (Demo.handler Demo.bucket_up Demo.container_ok)
                  (delivered "req-1") (Demo.bucket_with_payload "req-1"))
     = [{| EventStatusCode := 200; Duration := 5 |}].
Proof. split_and!; vm_compute; reflexivity. Qed.

(** Scenario C: the container is down; the Failed marker is written and the
    message is acknowledged. *)
Lemma Handle_forward_failed_witness :
  exists werr,
    demo_ops (Demo.handler Demo.bucket_up Demo.container_down) (delivered "req-3")
      (Demo.bucket_with_payload "req-3") !! 3%nat
    = Some (demo_marker (Demo.handler Demo.bucket_up Demo.container_down) "req-3"
              StatusFailed werr)
    /\ (werr = None ->
        (demo_Handle (Demo.handler Demo.bucket_up Demo.container_down) (delivered "req-3")
           (Demo.bucket_with_payload "req-3")).1 = None)
    /\ (werr <> None ->
        (demo_Handle (Demo.handler Demo.bucket_up Demo.container_down) (delivered "req-3")
           (Demo.bucket_with_payload "req-3")).1 <> None).
Proof.
  apply (Handle_forward_failed Demo.json_Decode Demo.json_Marshal Demo.StatusPath
           Demo.PayloadPath Demo.ResultPath Demo.Status_String Demo.NewRequest_err
           (Demo.handler Demo.bucket_up Demo.container_down) "req-3"
           (Demo.bucket_with_payload "req-3") Demo.input
           (forward_request (Demo.handler Demo.bucket_up Demo.container_down)
              (payload_of Demo.input) "req-3")
           (inl (ExternalError "connection refused"))).
  - discriminate.
  - vm_compute; reflexivity.
  - vm_compute; reflexivity.
  - vm_compute; reflexivity.
  - exact I.
Defined.

(** Scenario B: no payload in the bucket; the fetch fails and so does the
    delivery. *)
Lemma Handle_storage_failure_witness :
  (demo_Handle (Demo.handler Demo.bucket_up Demo.container_ok) (delivered "req-2")
     Demo.empty_bucket).1 <> None.
Proof.
  apply (Handle_storage_failure Demo.json_Decode Demo.json_Marshal Demo.StatusPath
           Demo.PayloadPath Demo.ResultPath Demo.Status_String Demo.NewRequest_err).
  - discriminate.
  - right; left. exists NoSuchKey. vm_compute.
    apply list_elem_of_further, list_elem_of_here.
Defined.

Lemma terminal_marker_after_in_progress_witness :
  exists j, (j < 2)%nat
    /\ demo_ops (Demo.handler Demo.bucket_up Demo.container_ok) (delivered "req-1")
         Demo.empty_bucket !! j
       = Some (demo_marker (Demo.handler Demo.bucket_up Demo.container_ok) "req-1"
                 StatusInProgress None).
Proof.
  apply (terminal_marker_after_in_progress Demo.json_Decode Demo.json_Marshal
           Demo.StatusPath Demo.PayloadPath Demo.ResultPath Demo.Status_String
           Demo.NewRequest_err _ "req-1" Demo.empty_bucket 2 StatusFailed None).
  - discriminate.
  - unfold distinct_keys. apply (bool_decide_unpack _). vm_compute. exact I.
  - reflexivity.
  - vm_compute; reflexivity.
Defined.

Lemma no_marker_after_terminal_witness :
  (exists err,
     demo_ops (Demo.handler Demo.bucket_up Demo.container_ok) (delivered "req-1")
       (Demo.bucket_with_payload "req-1") !! 0%nat
     = Some (demo_marker (Demo.handler Demo.bucket_up Demo.container_ok) "req-1"
               StatusInProgress err))
  /\ forall (i j : nat) (s s' : Status) (err err' : option error),
       is_terminal s = true ->
       (i < j)%nat ->
       demo_ops (Demo.handler Demo.bucket_up Demo.container_ok) (delivered "req-1")
         (Demo.bucket_with_payload "req-1") !! i
       = Some (demo_marker (Demo.handler Demo.bucket_up Demo.container_ok) "req-1" s err) ->
       demo_ops (Demo.handler Demo.bucket_up Demo.container_ok) (delivered "req-1")
         (Demo.bucket_with_payload "req-1") !! j
       <> Some (demo_marker (Demo.handler Demo.bucket_up Demo.container_ok) "req-1" s' err').
Proof.
  apply (no_marker_after_terminal Demo.json_Decode Demo.json_Marshal
           Demo.StatusPath Demo.PayloadPath Demo.ResultPath Demo.Status_String
           Demo.NewRequest_err).
  - discriminate.
  - unfold distinct_keys. apply (bool_decide_unpack _). vm_compute. exact I.
Defined.

(** Scenario A: the result is in the bucket when the Completed marker is
    written, and the payload is gone afterwards. *)
Lemma completed_has_result_witness :
  store (demo_Handle (Demo.handler Demo.bucket_up Demo.container_ok) (delivered "req-1")
           (Demo.bucket_with_payload "req-1")).2
    !! ("bucket", "cluster/api/req-1/payload") = None.
Proof.
  destruct (completed_has_result Demo.json_Decode Demo.json_Marshal
              Demo.StatusPath Demo.PayloadPath Demo.ResultPath Demo.Status_String
              Demo.NewRequest_err (Demo.handler Demo.bucket_up Demo.container_ok)
              "req-1" (Demo.bucket_with_payload "req-1") 5)
    as (_ & _ & derr & Hdel & _ & Hgone & _).
  - discriminate.
  - unfold distinct_keys. apply (bool_decide_unpack _). vm_compute. exact I.
  - vm_compute; reflexivity.
  - apply Hgone. vm_compute in Hdel. congruence.
Defined.

Lemma Handle_empty_message_witness :
  is_unexpected (demo_Handle (Demo.handler Demo.bucket_up Demo.container_ok) None
                   Demo.empty_bucket).1
  /\ (demo_Handle (Demo.handler Demo.bucket_up Demo.container_ok) None
        Demo.empty_bucket).2 = Demo.empty_bucket
  /\ demo_ops (Demo.handler Demo.bucket_up Demo.container_ok) None Demo.empty_bucket = [].
Proof.
  apply (Handle_empty_message Demo.json_Decode Demo.json_Marshal Demo.StatusPath
           Demo.PayloadPath Demo.ResultPath Demo.Status_String Demo.NewRequest_err).
  exact I.
Defined.

(** Scenario B: both markers are in the bucket and the fetch error comes
    back. *)
Lemma Handle_fetch_failed_witness :
  exists werr,
    demo_ops (Demo.handler Demo.bucket_up Demo.container_ok) (delivered "req-2")
      Demo.empty_bucket
    = [demo_marker (Demo.handler Demo.bucket_up Demo.container_ok) "req-2"
         StatusInProgress None;
       fetch Demo.PayloadPath (Demo.handler Demo.bucket_up Demo.container_ok) "req-2"
         (inl NoSuchKey);
       demo_marker (Demo.handler Demo.bucket_up Demo.container_ok) "req-2"
         StatusFailed werr]
    /\ (demo_Handle (Demo.handler Demo.bucket_up Demo.container_ok) (delivered "req-2")
          Demo.empty_bucket).1
       = Some (Wrap (WithStack NoSuchKey) "failed to get payload").
Proof.
  destruct (Handle_fetch_failed Demo.json_Decode Demo.json_Marshal Demo.StatusPath
              Demo.PayloadPath Demo.ResultPath Demo.Status_String Demo.NewRequest_err
              (Demo.handler Demo.bucket_up Demo.container_ok) "req-2"
              Demo.empty_bucket NoSuchKey)
    as (werr & Hops & Hret & _).
  - discriminate.
  - vm_compute; reflexivity.
  - vm_compute; reflexivity.
  - exists werr. split; assumption.
Defined.

Lemma payload_deleted_once_witness :
  deletions_of
    (demo_ops (Demo.handler Demo.bucket_up Demo.container_down) (delivered "req-3")
       (Demo.bucket_with_payload "req-3"))
  = [("bucket", "cluster/api/req-3/payload")].
Proof.
  destruct (payload_deleted_once Demo.json_Decode Demo.json_Marshal Demo.StatusPath
              Demo.PayloadPath Demo.ResultPath Demo.Status_String Demo.NewRequest_err
              (Demo.handler Demo.bucket_up Demo.container_down) "req-3"
              (Demo.bucket_with_payload "req-3"))
    as [Hdel _].
  - discriminate.
  - exact Hdel.
Defined.

(** Scenario A: the forward succeeds and the event sink gets one event. *)
Lemma submitRequest_event_witness :
  forward_succeeded Demo.json_Decode (inr Demo.ok_response)
  <-> exists ev,
        events_of
          (ops_between Demo.empty_bucket
             (submitRequest Demo.json_Decode Demo.NewRequest_err
                (Demo.handler Demo.bucket_up Demo.container_ok) (payload_of Demo.input)
                "req-1" Demo.empty_bucket).2)
        = [ev].
Proof.
  destruct (submitRequest_event Demo.json_Decode Demo.NewRequest_err
              (Demo.handler Demo.bucket_up Demo.container_ok) (payload_of Demo.input)
              "req-1" Demo.empty_bucket
              (forward_request (Demo.handler Demo.bucket_up Demo.container_ok)
                 (payload_of Demo.input) "req-1")
              (inr Demo.ok_response))
    as (Hiff & _).
  - vm_compute; reflexivity.
  - exact Hiff.
Defined.

(** The same forward on a clock that stands still: the one event of the
    successful forward has duration 0. *)
Lemma instant_round_trip_event :
  ~ one_positive_event Demo.json_Decode Demo.NewRequest_err
      (Demo.handler Demo.bucket_up Demo.container_instant) (payload_of Demo.input)
      "req-1" Demo.empty_bucket.
Proof.
  intros Hone.
  destruct (Hone (forward_request (Demo.handler Demo.bucket_up Demo.container_instant)
                    (payload_of Demo.input) "req-1")
              (inr Demo.ok_response)) as [Hev _].
  - vm_compute; reflexivity.
  - destruct Hev as (ev & Hev & _ & Hpos).
    + split_and!; [reflexivity | reflexivity | vm_compute; eauto].
    + vm_compute in Hev. injection Hev as <-. cbn in Hpos. lia.
Qed.

Lemma forward_content_type_witness :
  exists req res,
    demo_ops (Demo.handler Demo.bucket_up Demo.container_ok) (delivered "req-1")
      (Demo.bucket_with_payload "req-1") !! 2%nat = Some (OpHTTP req res)
    /\ http.Header_Get (http.ReqHeader req) "Content-Type" = "application/octet-stream".
Proof.
  apply (forward_content_type Demo.json_Decode Demo.json_Marshal Demo.StatusPath
           Demo.PayloadPath Demo.ResultPath Demo.Status_String Demo.NewRequest_err
           (Demo.handler Demo.bucket_up Demo.container_ok) "req-1"
           (Demo.bucket_with_payload "req-1") Demo.input).
  - discriminate.
  - reflexivity.
  - vm_compute; reflexivity.
Defined.

(** The first delivery of a request without payload writes the Failed marker
    and fails; the redelivery writes the InProgress marker after it. *)
Lemma redelivery_rewrites_in_progress :
  (demo_Handle (Demo.handler Demo.bucket_up Demo.container_ok) (delivered "req-2")
     Demo.empty_bucket).1 <> None
  /\ ~ terminal_markers_final Demo.StatusPath
         (Demo.handler Demo.bucket_up Demo.container_ok) "req-2"
         (trace
            (demo_Handle (Demo.handler Demo.bucket_up Demo.container_ok)
               (delivered "req-2")
               (demo_Handle (Demo.handler Demo.bucket_up Demo.container_ok)
                  (delivered "req-2") Demo.empty_bucket).2).2).
Proof.
  split; [discriminate |].
  intros Hfinal.
  apply (Hfinal 2%nat 3%nat StatusFailed StatusInProgress);
    [lia | reflexivity | cbn; lia | vm_compute; reflexivity | vm_compute; reflexivity].
Qed.

(** The Completed marker is written, the bucket refuses the deletion, and
    the payload is still there. *)
Lemma failed_cleanup_keeps_payload :
  ~ completed_without_payload Demo.json_Decode Demo.json_Marshal Demo.StatusPath
      Demo.PayloadPath Demo.ResultPath Demo.Status_String Demo.NewRequest_err
      (Demo.handler Demo.delete_denied Demo.container_ok) "req-1"
      (Demo.bucket_with_payload "req-1").
Proof.
  intros Hgone. destruct Hgone as [_ Hgone].
  - exists 5%nat. vm_compute; reflexivity.
  - vm_compute in Hgone. discriminate Hgone.
Qed.

(** ** More of the concrete deployment *)

Lemma Handle_completes_witness :
  (demo_Handle (Demo.handler Demo.bucket_up Demo.container_ok) (delivered "req-1")
     (Demo.bucket_with_payload "req-1")).1 = None.
Proof.
  destruct (Handle_completes Demo.json_Decode Demo.json_Marshal Demo.StatusPath
              Demo.PayloadPath Demo.ResultPath Demo.Status_String Demo.NewRequest_err
              (Demo.handler Demo.bucket_up Demo.container_ok) "req-1"
              (Demo.bucket_with_payload "req-1") Demo.input Demo.ok_response "{}")
    as (Hret & _).
  - discriminate.
  - unfold distinct_keys. apply (bool_decide_unpack _). vm_compute. exact I.
  - intros w call. reflexivity.
  - vm_compute; reflexivity.
  - reflexivity.
  - intros w req. reflexivity.
  - split_and!; [reflexivity | reflexivity | vm_compute; eauto].
  - reflexivity.
  - exact Hret.
Defined.

Lemma Handle_missing_payload_witness :
  (demo_Handle (Demo.handler Demo.bucket_up Demo.container_ok) (delivered "req-2")
     Demo.empty_bucket).1
  = Some (Wrap (WithStack NoSuchKey) "failed to get payload").
Proof.
  destruct (Handle_missing_payload Demo.json_Decode Demo.json_Marshal Demo.StatusPath
              Demo.PayloadPath Demo.ResultPath Demo.Status_String Demo.NewRequest_err
              (Demo.handler Demo.bucket_up Demo.container_ok) "req-2" Demo.empty_bucket)
    as (Hret & _).
  - discriminate.
  - unfold distinct_keys. apply (bool_decide_unpack _). vm_compute. exact I.
  - intros w call. reflexivity.
  - reflexivity.
  - exact Hret.
Defined.

Lemma redelivery_after_completed_witness :
  (demo_Handle (Demo.handler Demo.bucket_up Demo.container_ok) (delivered "req-1")
     (demo_Handle (Demo.handler Demo.bucket_up Demo.container_ok) (delivered "req-1")
        (Demo.bucket_with_payload "req-1")).2).1
  = Some (Wrap (WithStack NoSuchKey) "failed to get payload").
Proof.
  destruct (redelivery_after_completed Demo.json_Decode Demo.json_Marshal Demo.StatusPath
              Demo.PayloadPath Demo.ResultPath Demo.Status_String Demo.NewRequest_err
              (Demo.handler Demo.bucket_up Demo.container_ok) "req-1"
              (Demo.bucket_with_payload "req-1") Demo.input Demo.ok_response "{}")
    as (_ & Hret & _).
  - discriminate.
  - unfold distinct_keys. apply (bool_decide_unpack _). vm_compute. exact I.
  - intros w call. reflexivity.
  - vm_compute; reflexivity.
  - reflexivity.
  - intros w req. reflexivity.
  - split_and!; [reflexivity | reflexivity | vm_compute; eauto].
  - reflexivity.
  - exact Hret.
Defined.

(** The payload of another request is left alone. *)
Lemma Handle_frame_witness :
  store (demo_Handle (Demo.handler Demo.bucket_up Demo.container_ok) (delivered "req-1")
           (Demo.bucket_with_payload "req-9")).2
    !! ("bucket", "cluster/api/req-9/payload")
  = store (Demo.bucket_with_payload "req-9") !! ("bucket", "cluster/api/req-9/payload").
Proof.
  apply (Handle_frame Demo.json_Decode Demo.json_Marshal Demo.StatusPath
           Demo.PayloadPath Demo.ResultPath Demo.Status_String Demo.NewRequest_err).
  - discriminate.
  - intros _. apply (bool_decide_unpack _). vm_compute. exact I.
Defined.

Lemma Handle_forwards_once_witness :
  (length (forwards_of
             (demo_ops (Demo.handler Demo.bucket_up Demo.container_down)
                (delivered "req-3") (Demo.bucket_with_payload "req-3"))) <= 1)%nat.
Proof.
  destruct (Handle_forwards_once Demo.json_Decode Demo.json_Marshal Demo.StatusPath
              Demo.PayloadPath Demo.ResultPath Demo.Status_String Demo.NewRequest_err
              (Demo.handler Demo.bucket_up Demo.container_down) "req-3"
              (Demo.bucket_with_payload "req-3"))
    as [Hnone | (o & req & _ & _ & Hone & _)].
  - discriminate.
  - rewrite Hnone. cbn. lia.
  - rewrite Hone. cbn. lia.
Defined.

Lemma uploaded_result_is_response_witness :
  exists req resp result,
    OpHTTP req (inr resp)
      ∈ demo_ops (Demo.handler Demo.bucket_up Demo.container_ok) (delivered "req-1")
          (Demo.bucket_with_payload "req-1")
    /\ accepted Demo.json_Decode resp
    /\ Demo.json_Decode (http.RespBody resp) = Some result
    /\ "{}" = Demo.json_Marshal result.
Proof.
  apply (uploaded_result_is_response Demo.json_Decode Demo.json_Marshal Demo.StatusPath
           Demo.PayloadPath Demo.ResultPath Demo.Status_String Demo.NewRequest_err
           (Demo.handler Demo.bucket_up Demo.container_ok) "req-1"
           (Demo.bucket_with_payload "req-1") "{}" None).
  - discriminate.
  - unfold distinct_keys. apply (bool_decide_unpack _). vm_compute. exact I.
  - vm_compute. do 4 apply list_elem_of_further. apply list_elem_of_here.
Defined.

(** Scenario C again: the acknowledged delivery left the Failed marker. *)
Lemma acknowledged_is_terminal_witness :
  exists s,
    is_terminal s = true
    /\ demo_marker (Demo.handler Demo.bucket_up Demo.container_down) "req-3" s None
       ∈ demo_ops (Demo.handler Demo.bucket_up Demo.container_down) (delivered "req-3")
           (Demo.bucket_with_payload "req-3")
    /\ store (demo_Handle (Demo.handler Demo.bucket_up Demo.container_down)
                (delivered "req-3") (Demo.bucket_with_payload "req-3")).2
         !! ("bucket", Demo.StatusPath "cluster/api" "req-3" s)
       = Some (mkS3Object "" None).
Proof.
  apply (acknowledged_is_terminal Demo.json_Decode Demo.json_Marshal Demo.StatusPath
           Demo.PayloadPath Demo.ResultPath Demo.Status_String Demo.NewRequest_err
           (Demo.handler Demo.bucket_up Demo.container_down) "req-3"
           (Demo.bucket_with_payload "req-3")).
  - discriminate.
  - unfold distinct_keys. apply (bool_decide_unpack _). vm_compute. exact I.
  - vm_compute; reflexivity.
Defined.

(** The bucket refuses the deletion: telemetry gets that error, wrapped. *)
Lemma Handle_telemetry_witness :
  telemetry (demo_Handle (Demo.handler Demo.delete_denied Demo.container_ok)
               (delivered "req-1") (Demo.bucket_with_payload "req-1")).2
  = [Wrap (ExternalError "AccessDenied") "failed to delete user payload"].
Proof.
  rewrite (Handle_telemetry Demo.json_Decode Demo.json_Marshal Demo.StatusPath
             Demo.PayloadPath Demo.ResultPath Demo.Status_String Demo.NewRequest_err
             (Demo.handler Demo.delete_denied Demo.container_ok) "req-1"
             (Demo.bucket_with_payload "req-1")).
  - vm_compute; reflexivity.
  - discriminate.
Defined.

(** Scaling the [gpu] node group of the demo cluster to 1..4. *)
Lemma updateNodeGroupScale_updates_witness :
  exists ng,
    cluster.NodeGroups cluster.demo !! 2%nat = Some (Some ng)
    /\ cluster.Name ng = "gpu"
    /\ 0 <= default (cluster.MinInstances ng) (Some 1)
         <= default (cluster.MaxInstances ng) (Some 4).
Proof.
  destruct (updateNodeGroupScale_updates "min_instances" "max_instances" cluster.yes
              cluster.demo
              {| cluster.ClusterName := "prod"; cluster.Region := "us-east-1";
                 cluster.NodeGroups :=
                   [None;
                    Some {| cluster.Name := "cpu"; cluster.MinInstances := 1;
                            cluster.MaxInstances := 5 |};
                    Some {| cluster.Name := "gpu"; cluster.MinInstances := 1;
                            cluster.MaxInstances := 4 |}] |}
              "gpu" (Some 1) (Some 4) true 2)
    as (ng & Hng & Hname & _ & Hbounds & _).
  - vm_compute; reflexivity.
  - exists ng. split_and!; [exact Hng | exact Hname | apply Hbounds | apply Hbounds].
Defined.

Lemma updateNodeGroupScale_first_match_witness :
  cluster.Name {| cluster.Name := "cpu"; cluster.MinInstances := 1;
                  cluster.MaxInstances := 5 |} <> "gpu".
Proof.
  apply (updateNodeGroupScale_first_match "min_instances" "max_instances" cluster.yes
           cluster.demo
           {| cluster.ClusterName := "prod"; cluster.Region := "us-east-1";
              cluster.NodeGroups :=
                [None;
                 Some {| cluster.Name := "cpu"; cluster.MinInstances := 1;
                         cluster.MaxInstances := 5 |};
                 Some {| cluster.Name := "gpu"; cluster.MinInstances := 1;
                         cluster.MaxInstances := 4 |}] |}
           "gpu" (Some 1) (Some 4) true 2 1).
  - vm_compute; reflexivity.
  - lia.
  - reflexivity.
Defined.

Lemma updateNodeGroupScale_consent_witness :
  exists ng,
    cluster.NodeGroups cluster.demo !! 1%nat = Some (Some ng)
    /\ (default (cluster.MinInstances ng) None <> cluster.MinInstances ng
        \/ default (cluster.MaxInstances ng) (Some 8) <> cluster.MaxInstances ng)
    /\ cluster.yes (cluster.promptMessage "min_instances" "max_instances" "prod"
                      "us-east-1" ng (default (cluster.MinInstances ng) None)
                      (default (cluster.MaxInstances ng) (Some 8))) = true.
Proof.
  apply (updateNodeGroupScale_consent "min_instances" "max_instances" cluster.yes
           cluster.demo
           {| cluster.ClusterName := "prod"; cluster.Region := "us-east-1";
              cluster.NodeGroups :=
                [None;
                 Some {| cluster.Name := "cpu"; cluster.MinInstances := 1;
                         cluster.MaxInstances := 8 |};
                 Some {| cluster.Name := "gpu"; cluster.MinInstances := 0;
                         cluster.MaxInstances := 2 |}] |}
           "cpu" None (Some 8) 1).
  vm_compute; reflexivity.
Defined.

(** The messages of the demo cluster, as the user sees them. *)
Example scale_messages :
  cluster.updateNodeGroupScale "min_instances" "max_instances" cluster.no
    cluster.demo "gpu" None None false
  = cluster.ExitOk
      ("the gpu nodegroup in the prod cluster in us-east-1 already has min instances"
         +:+ " set to 0 and max instances set to 2" +:+ cluster.newline)
  /\ cluster.promptMessage "min_instances" "max_instances" "prod" "us-east-1"
       {| cluster.Name := "cpu"; cluster.MinInstances := 1; cluster.MaxInstances := 5 |}
       1 8
     = "your nodegroup named cpu in your prod cluster in us-east-1 will update its"
         +:+ " max_instances from 5 to 8"
  /\ cluster.updateNodeGroupScale "min_instances" "max_instances" cluster.no
       cluster.demo "cpu" (Some 3) (Some 2) true
     = cluster.Return cluster.zero 0
         (Some (cluster.ErrorMinInstancesGreaterThanMaxInstances 3 2)).
Proof. split_and!; vm_compute; reflexivity. Qed.

Lemma cluster_up_rules_witness :
  exists clusterUIDs,
    lifecycle.list_dirs lifecycle.two_clusters "bucket" = inr clusterUIDs
    /\ length clusterUIDs = 2%nat.
Proof.
  destruct (cluster_up_rules 0%nat lifecycle.dir_suffix lifecycle.dir_join
              lifecycle.two_clusters "bucket" "new" "bucket"
              [lifecycle.cluster_rule 0%nat lifecycle.dir_suffix "a";
               lifecycle.cluster_rule 0%nat lifecycle.dir_suffix "b";
               lifecycle.workloads_rule lifecycle.dir_suffix lifecycle.dir_join "new"])
    as (uids & Hlist & _ & _ & Hrules & _).
  - vm_compute. do 2 apply list_elem_of_further. apply list_elem_of_here.
  - exists uids. split; [exact Hlist |].
    apply (f_equal length) in Hrules. rewrite length_app, length_map in Hrules.
    cbn in Hrules. lia.
Defined.

Lemma cluster_up_limit_witness :
  (lifecycle.setLifecycleRulesOnClusterUp 0%nat lifecycle.dir_suffix lifecycle.dir_join
     lifecycle.full_bucket "bucket" "new").1
  = Some (lifecycle.ErrorClusterUIDsLimitInBucket "bucket").
Proof.
  rewrite (cluster_up_limit 0%nat lifecycle.dir_suffix lifecycle.dir_join
             lifecycle.full_bucket "bucket" "new" (replicate 100 "c")).
  - reflexivity.
  - reflexivity.
  - reflexivity.
  - rewrite length_replicate. unfold consts.MaxBucketLifecycleRules. lia.
Defined.
